(** * Invoice pricing: a shallow embedding of [src/invoice_service.py]

    The Python module defines two dataclasses ([LineItem], [Invoice]) and the
    class [InvoiceService], whose method [compute_total] validates an invoice
    and prices it.  This file embeds every method of the class and proves the
    properties stated about it.

    Modelling choices, all taken from the source:
    - a Python [float] is an IEEE 754 binary64 number, embedded as the
      Standard Library's [spec_float] at precision 53 and maximal exponent
      1024, with the library's correctly rounded operations;
    - a Python [int] is an unbounded integer, [Z]; mixing it with a float
      converts it first, which raises [OverflowError] when it is too large;
    - a Python [str] is a [string] whose characters are read as the code
      points U+0000 to U+00FF;
    - a dict is a [gmap]; the instance attributes of the service form the
      state that is threaded through every method call;
    - an exception is the [Raise] outcome of the call. *)

From Stdlib Require Import ZArith Bool List Ascii String Lia Permutation.
From Stdlib Require Import Floats.SpecFloat.
From stdpp Require Import gmap strings.

Local Open Scope string_scope.
Local Open Scope list_scope.
Local Open Scope Z_scope.

(** ** Binary64 arithmetic *)

Module F64.

Definition prec : Z := 53.
Definition emax : Z := 1024.

Abbreviation float := spec_float.

Definition add : float -> float -> float := SFadd prec emax.
Definition sub : float -> float -> float := SFsub prec emax.
Definition mul : float -> float -> float := SFmul prec emax.
Definition div : float -> float -> float := SFdiv prec emax.

(** [x < y], [x > y] and [x >= y] on doubles; each is false as soon as one
    side is a NaN. *)
Definition ltb (x y : float) : bool := SFltb x y.
Definition gtb (x y : float) : bool := SFltb y x.
Definition geb (x y : float) : bool := SFleb y x.

(** The double nearest to an integer (ties to even); an integer beyond the
    range rounds to an infinity. *)
Definition of_int (n : Z) : float := binary_normalize prec emax n 0 false.

(** The double denoted by the decimal literal [n / d], for [n] and [d]
    below [2^53]: the correctly rounded quotient of two exact doubles. *)
Definition literal (n d : Z) : float := div (of_int n) (of_int d).

Definition is_nan (x : float) : bool :=
  match x with S754_nan => true | _ => false end.

Definition is_finite (x : float) : bool :=
  match x with S754_zero _ | S754_finite _ _ _ => true | _ => false end.

(** The values of [spec_float] that are doubles. *)
Definition well_formed (x : float) : bool := valid_binary prec emax x.

Definition zero : float := S754_zero false.

End F64.

Abbreviation float := spec_float.

(** The float literals of the source, as mantissa and exponent. *)
Definition f_0_03 : float := S754_finite false 8646911284551352 (-58).
Definition f_0_05 : float := S754_finite false 7205759403792794 (-57).
Definition f_0_10 : float := S754_finite false 7205759403792794 (-56).
Definition f_0_20 : float := S754_finite false 7205759403792794 (-55).
Definition f_0_07 : float := S754_finite false 5044031582654956 (-56).
Definition f_0_08 : float := S754_finite false 5764607523034235 (-56).
Definition f_5 : float := S754_finite false 5629499534213120 (-50).
Definition f_8 : float := S754_finite false 4503599627370496 (-49).
Definition f_15 : float := S754_finite false 8444249301319680 (-49).
Definition f_20 : float := S754_finite false 5629499534213120 (-48).
Definition f_25 : float := S754_finite false 7036874417766400 (-48).
Definition f_60 : float := S754_finite false 8444249301319680 (-47).
Definition f_600 : float := S754_finite false 5277655813324800 (-43).

(** ** Python values *)

Inductive exn : Type :=
| ValueError (msg : string)
| OverflowError (msg : string)
| AttributeError (msg : string).

Inductive outcome (A : Type) : Type :=
| Return (a : A)
| Raise (e : exn).
Arguments Return {A} a.
Arguments Raise {A} e.

(** [float(n)] as the arithmetic operators apply it to an [int] operand. *)
Definition float_of_int (n : Z) : outcome float :=
  match F64.of_int n with
  | S754_infinity _ => Raise (OverflowError "int too large to convert to float")
  | x => Return x
  end.

(** The builtin [max(a, b)]: it keeps [a] unless [b > a]. *)
Definition py_max (a b : float) : float := if F64.gtb b a then b else a.

(** [str.isspace] on one character, for the code points below 256. *)
Definition isspace (c : ascii) : bool :=
  let n := N_of_ascii c in
  ((9 <=? n) && (n <=? 13) || (28 <=? n) && (n <=? 32)
   || (n =? 133) || (n =? 160))%N.

Fixpoint lstrip (s : string) : string :=
  match s with
  | EmptyString => EmptyString
  | String c s' => if isspace c then lstrip s' else s
  end.

Fixpoint rstrip (s : string) : string :=
  match s with
  | EmptyString => EmptyString
  | String c s' =>
      match rstrip s' with
      | EmptyString => if isspace c then EmptyString else String c EmptyString
      | r => String c r
      end
  end.

(** [s.strip()] *)
Definition strip (s : string) : string := rstrip (lstrip s).

(** [sep.join(l)] *)
Definition join (sep : string) (l : list string) : string := String.concat sep l.

(** [x in t] for a tuple of strings. *)
Definition str_in (x : string) (t : list string) : bool := existsb (String.eqb x) t.

(** ** The dataclasses *)

Record LineItem : Type := {
  sku : string;
  category : string;
  unit_price : float;
  qty : Z;
  fragile : bool
}.

Record Invoice : Type := {
  invoice_id : string;
  customer_id : string;
  country : string;
  membership : string;
  coupon : option string;
  items : list LineItem
}.

(** ** The service object and the monad of its methods *)

Record InvoiceService : Type := {
  _coupon_rate : gmap string float;
  _tax_rates : gmap string float
}.

Definition VALID_CATEGORIES : list string := ["book"; "food"; "electronics"; "other"].

(** [InvoiceService()] *)
Definition __init__ : InvoiceService := {|
  _coupon_rate :=
    <["STUDENT5" := f_0_05]> (<["VIP20" := f_0_20]> (<["WELCOME10" := f_0_10]> ∅));
  _tax_rates :=
    <["US" := f_0_08]> (<["JP" := f_0_10]> (<["TH" := f_0_07]> ∅))
|}.

(** A method call takes the object as it is and gives an outcome together
    with the object as the call leaves it. *)
Definition M (A : Type) : Type := InvoiceService -> outcome A * InvoiceService.

#[global] Instance M_ret : MRet M := fun A a self => (Return a, self).

#[global] Instance M_bind : MBind M := fun A B k m self =>
  match m self with
  | (Return a, self') => k a self'
  | (Raise e, self') => (Raise e, self')
  end.

Definition raise {A : Type} (e : exn) : M A := fun self => (Raise e, self).

Definition lift {A : Type} (o : outcome A) : M A := fun self => (o, self).

(** Reading an attribute of [self]. *)
Definition attr {A : Type} (f : InvoiceService -> A) : M A :=
  fun self => (Return (f self), self).

(** [x * n] for a float [x] and an int [n]. *)
Definition float_mul_int (x : float) (n : Z) : M float :=
  y ← lift (float_of_int n); mret (F64.mul x y).

(** ** The methods of [InvoiceService] *)

(** The body of the loop of [_validate]. *)
Definition validate_item (problems : list string) (it : LineItem) : list string :=
  let problems :=
    if String.eqb (sku it) "" then problems ++ ["Item sku is missing"] else problems in
  let problems :=
    if qty it <=? 0 then problems ++ ["Invalid qty for " +:+ sku it] else problems in
  let problems :=
    if F64.ltb (unit_price it) (F64.of_int 0)
    then problems ++ ["Invalid price for " +:+ sku it] else problems in
  let problems :=
    if negb (str_in (category it) VALID_CATEGORIES)
    then problems ++ ["Unknown category for " +:+ sku it] else problems in
  problems.

Definition _validate (inv : option Invoice) : list string :=
  let problems := [] in
  match inv with
  | None => ["Invoice is missing"]
  | Some inv =>
      let problems :=
        if String.eqb (invoice_id inv) "" then problems ++ ["Missing invoice_id"]
        else problems in
      let problems :=
        if String.eqb (customer_id inv) "" then problems ++ ["Missing customer_id"]
        else problems in
      let problems :=
        match items inv with
        | [] => problems ++ ["Invoice must contain items"]
        | _ => problems
        end in
      fold_left validate_item (items inv) problems
  end.

(** The body of the loop of [_calc_subtotal_and_fragile]. *)
Definition subtotal_step (acc : float * float) (it : LineItem) : M (float * float) :=
  let '(subtotal, fragile_fee) := acc in
  p ← float_mul_int (unit_price it) (qty it);
  let subtotal := F64.add subtotal p in
  if fragile it then
    f ← float_mul_int f_5 (qty it);
    mret (subtotal, F64.add fragile_fee f)
  else mret (subtotal, fragile_fee).

Fixpoint subtotal_loop (its : list LineItem) (acc : float * float) : M (float * float) :=
  match its with
  | [] => mret acc
  | it :: rest => acc' ← subtotal_step acc it; subtotal_loop rest acc'
  end.

Definition _calc_subtotal_and_fragile (its : list LineItem) : M (float * float) :=
  subtotal_loop its (F64.zero, F64.zero).

Definition _calc_shipping (subtotal : float) (country : string) : float :=
  if String.eqb country "US" then
    if F64.ltb subtotal (F64.of_int 100) then f_15
    else if F64.ltb subtotal (F64.of_int 300) then f_8
    else F64.zero
  else if String.eqb country "TH" then
    if F64.ltb subtotal (F64.of_int 500) then f_60 else F64.zero
  else if String.eqb country "JP" then
    if F64.ltb subtotal (F64.of_int 4000) then f_600 else F64.zero
  else
    if F64.ltb subtotal (F64.of_int 200) then f_25 else F64.zero.

Definition _membership_discount (subtotal : float) (membership : string) : float :=
  if String.eqb membership "gold" then F64.mul subtotal f_0_03
  else if String.eqb membership "platinum" then F64.mul subtotal f_0_05
  else if F64.gtb subtotal (F64.of_int 3000) then f_20 else F64.zero.

(** The list [warnings] is mutated by the callee; the model returns it. *)
Definition _coupon_discount (subtotal : float) (coupon : option string)
    (warnings : list string) : M (float * list string) :=
  match coupon with
  | None => mret (F64.zero, warnings)
  | Some c =>
      if String.eqb c "" || String.eqb (strip c) "" then mret (F64.zero, warnings)
      else
        let code := strip c in
        rate ← attr (fun self => _coupon_rate self !! code);
        match rate with
        | None => mret (F64.zero, warnings ++ ["Unknown coupon"])
        | Some rate => mret (F64.mul subtotal rate, warnings)
        end
  end.

Definition _tax_amount (taxable : float) (country : string) : M float :=
  rate ← attr (fun self => default f_0_05 (_tax_rates self !! country));
  mret (F64.mul taxable rate).

(** The local variables of [compute_total] when it returns. *)
Record Locals : Type := {
  l_subtotal : float;
  l_fragile_fee : float;
  l_shipping : float;
  l_discount : float;
  l_taxable : float;
  l_tax : float;
  l_total : float;
  l_warnings : list string
}.

(** The body of [compute_total] up to its [return]. *)
Definition compute_total_body (inv : option Invoice) : M Locals :=
  let warnings := [] in
  let problems := _validate inv in
  match problems with
  | _ :: _ => raise (ValueError (join "; " problems))
  | [] =>
      match inv with
      | None => raise (AttributeError "'NoneType' object has no attribute 'items'")
      | Some inv =>
          '(subtotal, fragile_fee) ← _calc_subtotal_and_fragile (items inv);
          let shipping := _calc_shipping subtotal (country inv) in
          let discount := _membership_discount subtotal (membership inv) in
          '(cd, warnings) ← _coupon_discount subtotal (coupon inv) warnings;
          let discount := F64.add discount cd in
          let taxable := py_max (F64.sub subtotal discount) F64.zero in
          tax ← _tax_amount taxable (country inv);
          let total :=
            F64.sub (F64.add (F64.add (F64.add subtotal shipping) fragile_fee) tax)
                    discount in
          let total := py_max total F64.zero in
          let warnings :=
            if F64.gtb subtotal (F64.of_int 10000)
               && negb (str_in (membership inv) ["gold"; "platinum"])
            then warnings ++ ["Consider membership upgrade"] else warnings in
          mret {| l_subtotal := subtotal; l_fragile_fee := fragile_fee;
                  l_shipping := shipping; l_discount := discount;
                  l_taxable := taxable; l_tax := tax; l_total := total;
                  l_warnings := warnings |}
      end
  end.

Definition compute_total (inv : option Invoice) : M (float * list string) :=
  l ← compute_total_body inv; mret (l_total l, l_warnings l).

(** ** Notions used by the statements *)

(** [n] converts to a double without raising. *)
Definition fits_float (n : Z) : bool :=
  match float_of_int n with Return _ => true | Raise _ => false end.

(** The total as assembled from the five amounts it depends on. *)
Definition total_formula (subtotal shipping fragile_fee tax discount : float) : float :=
  py_max
    (F64.sub (F64.add (F64.add (F64.add subtotal shipping) fragile_fee) tax) discount)
    F64.zero.

(** The coupon is present, not blank, and its trimmed code has no rate. *)
Definition coupon_unknown (coupon : option string) : bool :=
  match coupon with
  | None => false
  | Some c =>
      negb (String.eqb (strip c) "")
      && match _coupon_rate __init__ !! strip c with None => true | Some _ => false end
  end.

(** The condition under which the upgrade warning is produced. *)
Definition upgrade_suggested (subtotal : float) (membership : string) : bool :=
  F64.gtb subtotal (F64.of_int 10000)
  && negb (String.eqb membership "gold") && negb (String.eqb membership "platinum").

(** Each of [parts] occurs in [msg], one after the other. *)
Fixpoint occur_in_order (parts : list string) (msg : string) : Prop :=
  match parts with
  | [] => True
  | p :: ps => exists pre post, msg = pre +:+ p +:+ post /\ occur_in_order ps post
  end.

(** The number of binary digits of a mantissa. *)
Definition digits (p : positive) : Z := Zpos (digits2_pos p).

(** The double of a positive integer of at most 53 bits: the mantissa is
    shifted up to 53 bits. *)
Definition int_double (s : bool) (n : positive) : float :=
  let '(m, e) := shl_align n 0 (digits n - 53) in S754_finite s m e.

(** Neither a NaN nor negative: a zero, a positive double or plus infinity. *)
Definition nonneg (x : float) : bool :=
  match x with
  | S754_nan => false
  | S754_zero _ => true
  | S754_infinity s | S754_finite s _ _ => negb s
  end.

Definition nonneg_or_nan (x : float) : bool := F64.is_nan x || nonneg x.

(** Every non-negative integer below this bound converts to a double, and
    no integer from the bound on does. *)
Definition float_int_bound : Z := 2 ^ 1024 - 2 ^ 970.

(** A finite double as an integer multiple of [2^-1074]. *)
Definition scaled (x : float) : Z :=
  match x with
  | S754_finite _ m e => Zpos m * 2 ^ (e + 1074)
  | _ => 0
  end.

(** What every rounded result satisfies: at most 53 digits and an exponent
    between -1074 and 971. *)
Definition in_range (x : float) : Prop :=
  match x with
  | S754_finite _ m e => digits m <= 53 /\ -1074 <= e <= 971
  | _ => True
  end.

(** A finite, non-negative amount in the range of the format, of at most
    [2^c]. *)
Definition amount_below (c : Z) (x : float) : Prop :=
  F64.is_finite x = true /\ nonneg x = true /\ in_range x /\
  scaled x <= 2 ^ (c + 1074).

(** The exact subtotal and fragile fee of a list whose unit prices are the
    whole numbers [whole it]. *)
Fixpoint exact_subtotal (whole : LineItem -> Z) (l : list LineItem) : Z :=
  match l with
  | [] => 0
  | it :: rest => whole it * qty it + exact_subtotal whole rest
  end.

Fixpoint exact_fragile_fee (l : list LineItem) : Z :=
  match l with
  | [] => 0
  | it :: rest => (if fragile it then 5 * qty it else 0) + exact_fragile_fee rest
  end.

(** No float operation of [_calc_subtotal_and_fragile] rounds on such a list. *)
Definition exact_amounts (whole : LineItem -> Z) (l : list LineItem) : Prop :=
  Forall (fun it => unit_price it = F64.of_int (whole it) /\
                    0 <= whole it < 2 ^ 53 /\ 0 <= qty it < 2 ^ 53) l /\
  exact_subtotal whole l < 2 ^ 53 /\
  exact_fragile_fee l < 2 ^ 53.

(** The fragile fee of an outcome of [_calc_subtotal_and_fragile]. *)
Definition fee_of (o : outcome (float * float)) : outcome float :=
  match o with
  | Return (_, fee) => Return fee
  | Raise e => Raise e
  end.

(** ** Sample invoices *)

(** The coupon case: one item of 1000.0, coupon VIP20, standard, US. *)
Definition item_1000 : LineItem :=
  {| sku := "A1"; category := "book"; unit_price := F64.of_int 1000;
     qty := 1; fragile := false |}.

Definition inv_vip20 : Invoice :=
  {| invoice_id := "I1"; customer_id := "C1"; country := "US";
     membership := "standard"; coupon := Some "VIP20"; items := [item_1000] |}.

(** No invoice id, no customer id, no items. *)
Definition inv_empty : Invoice :=
  {| invoice_id := ""; customer_id := ""; country := "US";
     membership := "standard"; coupon := None; items := [] |}.

(** A valid invoice whose quantity is too large for a float. *)
Definition item_huge_qty : LineItem :=
  {| sku := "A1"; category := "book"; unit_price := F64.of_int 1;
     qty := 2 ^ 1024; fragile := false |}.

Definition inv_huge_qty : Invoice :=
  {| invoice_id := "I1"; customer_id := "C1"; country := "US";
     membership := "standard"; coupon := None; items := [item_huge_qty] |}.

(** A valid invoice whose subtotal, 1e308 times 10, overflows. *)
Definition item_price_overflow : LineItem :=
  {| sku := "A1"; category := "book";
     unit_price := F64.of_int (10 ^ 308);
     qty := 10; fragile := false |}.

Definition inv_price_overflow : Invoice :=
  {| invoice_id := "I1"; customer_id := "C1"; country := "US";
     membership := "gold"; coupon := None; items := [item_price_overflow] |}.

(** Fragile items of price [n / d], and the prices 0.1, 0.2, 0.3 in two
    orders. *)
Definition item_priced (n d : Z) : LineItem :=
  {| sku := "A1"; category := "food"; unit_price := F64.literal n d;
     qty := 1; fragile := true |}.

Definition items_ascending : list LineItem :=
  [item_priced 1 10; item_priced 2 10; item_priced 3 10].

Definition items_descending : list LineItem :=
  [item_priced 3 10; item_priced 2 10; item_priced 1 10].

(** A subtotal of 12000.0, with an unknown coupon and with gold membership. *)
Definition item_12000 : LineItem :=
  {| sku := "B7"; category := "electronics"; unit_price := F64.of_int 12000;
     qty := 1; fragile := false |}.

Definition inv_both_warnings : Invoice :=
  {| invoice_id := "I2"; customer_id := "C1"; country := "US";
     membership := "standard"; coupon := Some "BOGUS50"; items := [item_12000] |}.

Definition inv_gold_12000 : Invoice :=
  {| invoice_id := "I3"; customer_id := "C1"; country := "US";
     membership := "gold"; coupon := None; items := [item_12000] |}.

(** The coupon case with the unknown coupon BOGUS50. *)
Definition inv_bogus50 : Invoice :=
  {| invoice_id := "I4"; customer_id := "C1"; country := "US";
     membership := "standard"; coupon := Some "BOGUS50"; items := [item_1000] |}.

(** Items of the whole price 10.0, in two orders. *)
Definition item_ten (q : Z) (f : bool) : LineItem :=
  {| sku := "T"; category := "other"; unit_price := F64.of_int 10;
     qty := q; fragile := f |}.

Definition items_whole : list LineItem :=
  [item_ten 1 true; item_ten 2 false; item_ten 3 true].

Definition items_whole_rotated : list LineItem :=
  [item_ten 2 false; item_ten 3 true; item_ten 1 true].

(** ** Notions used by the further properties *)

(** The four checks of [_validate] on one item all pass. *)
Definition item_valid (it : LineItem) : Prop :=
  sku it <> "" /\ 0 < qty it /\
  F64.ltb (unit_price it) (F64.of_int 0) = false /\
  str_in (category it) VALID_CATEGORIES = true.

(** The problems [_validate] finds before it looks at the items. *)
Definition header_problems (inv : Invoice) : list string :=
  (if String.eqb (invoice_id inv) "" then ["Missing invoice_id"] else []) ++
  (if String.eqb (customer_id inv) "" then ["Missing customer_id"] else []) ++
  (match items inv with [] => ["Invoice must contain items"] | _ => [] end).

(** The invoice with another coupon. *)
Definition with_coupon (inv : Invoice) (c : option string) : Invoice :=
  {| invoice_id := invoice_id inv; customer_id := customer_id inv;
     country := country inv; membership := membership inv;
     coupon := c; items := items inv |}.

(** What the fragile fee reads of an item. *)
Definition fee_view (it : LineItem) : Z * bool := (qty it, fragile it).

(** A valid item whose price is NaN, and an invoice of it. *)
Definition item_nan_price : LineItem :=
  {| sku := "N1"; category := "food"; unit_price := S754_nan;
     qty := 2; fragile := true |}.

Definition inv_nan_price : Invoice :=
  {| invoice_id := "I5"; customer_id := "C1"; country := "JP";
     membership := "platinum"; coupon := Some "VIP20";
     items := [item_1000; item_nan_price] |}.

(** A gold invoice of three items of whole price, with a padded coupon. *)
Definition inv_whole : Invoice :=
  {| invoice_id := "I7"; customer_id := "C1"; country := "TH";
     membership := "gold"; coupon := Some " STUDENT5 "; items := items_whole |}.

(** * Properties *)

(** Case analysis on a double: the two zeros, the two infinities, NaN, and
    the negative and positive finite numbers. *)
Ltac float_cases x := destruct x as [[]|[]| |[] ?m ?e].

(** ** The float literals *)

Lemma literals_denote :
  f_0_03 = F64.literal 3 100 /\ f_0_05 = F64.literal 5 100 /\
  f_0_10 = F64.literal 10 100 /\ f_0_20 = F64.literal 20 100 /\
  f_0_07 = F64.literal 7 100 /\ f_0_08 = F64.literal 8 100 /\
  f_5 = F64.of_int 5 /\ f_8 = F64.of_int 8 /\ f_15 = F64.of_int 15 /\
  f_20 = F64.of_int 20 /\ f_25 = F64.of_int 25 /\ f_60 = F64.of_int 60 /\
  f_600 = F64.of_int 600.
Proof. repeat split; reflexivity. Qed.

(** ** Running the monad *)

Lemma bind_unfold {A B : Type} (m : M A) (k : A -> M B) (self : InvoiceService) :
  (m ≫= k) self =
  match m self with
  | (Return a, self') => k a self'
  | (Raise e, self') => (Raise e, self')
  end.
Proof. reflexivity. Qed.

Lemma float_mul_int_run (x : float) (n : Z) (self : InvoiceService) :
  float_mul_int x n self =
  (match float_of_int n with
   | Return y => Return (F64.mul x y)
   | Raise e => Raise e
   end, self).
Proof.
  unfold float_mul_int. rewrite bind_unfold. unfold lift.
  destruct (float_of_int n); reflexivity.
Qed.

Lemma subtotal_step_run acc it self :
  subtotal_step acc it self =
  (match float_of_int (qty it) with
   | Return q =>
       Return (F64.add (fst acc) (F64.mul (unit_price it) q),
               if fragile it then F64.add (snd acc) (F64.mul f_5 q) else snd acc)
   | Raise e => Raise e
   end, self).
Proof.
  unfold subtotal_step. destruct acc as [s f].
  rewrite bind_unfold, float_mul_int_run.
  destruct (float_of_int (qty it)) as [q|e] eqn:Hq; [|reflexivity].
  destruct (fragile it); [|reflexivity].
  rewrite bind_unfold, float_mul_int_run, Hq. reflexivity.
Qed.

Lemma _tax_amount_run taxable country self :
  _tax_amount taxable country self =
  (Return (F64.mul taxable (default f_0_05 (_tax_rates self !! country))), self).
Proof. reflexivity. Qed.

Lemma float_of_int_error n e :
  float_of_int n = Raise e -> e = OverflowError "int too large to convert to float".
Proof.
  unfold float_of_int. destruct (F64.of_int n); intros H; try discriminate.
  injection H as <-. reflexivity.
Qed.

Lemma calc_single it self :
  _calc_subtotal_and_fragile [it] self =
  (match float_of_int (qty it) with
   | Return q =>
       Return (F64.add F64.zero (F64.mul (unit_price it) q),
               if fragile it then F64.add F64.zero (F64.mul f_5 q) else F64.zero)
   | Raise e => Raise e
   end, self).
Proof.
  unfold _calc_subtotal_and_fragile. cbn [subtotal_loop]. rewrite bind_unfold.
  unfold subtotal_step. rewrite bind_unfold, float_mul_int_run.
  destruct (float_of_int (qty it)) as [q|e] eqn:Hq; [|reflexivity].
  destruct (fragile it); [|reflexivity].
  rewrite bind_unfold, float_mul_int_run, Hq. reflexivity.
Qed.

(** ** The methods leave the service object as it is *)

Lemma subtotal_step_state acc it self : snd (subtotal_step acc it self) = self.
Proof.
  unfold subtotal_step. destruct acc as [s f].
  rewrite bind_unfold, float_mul_int_run.
  destruct (float_of_int (qty it)) as [q|e]; [|reflexivity].
  destruct (fragile it); [|reflexivity].
  rewrite bind_unfold, float_mul_int_run.
  destruct (float_of_int (qty it)); reflexivity.
Qed.

Lemma subtotal_loop_state its : forall acc self, snd (subtotal_loop its acc self) = self.
Proof.
  induction its as [|it rest IH]; intros acc self; [reflexivity|].
  cbn [subtotal_loop]. rewrite bind_unfold.
  pose proof (subtotal_step_state acc it self) as Hs.
  destruct (subtotal_step acc it self) as [[acc'|e] self']; cbn in Hs; subst self'.
  - apply IH.
  - reflexivity.
Qed.

Lemma _coupon_discount_state subtotal coupon warnings self :
  snd (_coupon_discount subtotal coupon warnings self) = self.
Proof.
  unfold _coupon_discount. destruct coupon as [c|]; [|reflexivity].
  destruct (String.eqb c "" || String.eqb (strip c) ""); [reflexivity|].
  rewrite bind_unfold. unfold attr.
  destruct (_coupon_rate self !! strip c); reflexivity.
Qed.

Lemma compute_total_body_state inv self : snd (compute_total_body inv self) = self.
Proof.
  unfold compute_total_body.
  destruct (_validate inv); [|reflexivity].
  destruct inv as [inv|]; [|reflexivity].
  rewrite bind_unfold.
  pose proof (subtotal_loop_state (items inv) (F64.zero, F64.zero) self) as H1.
  unfold _calc_subtotal_and_fragile.
  destruct (subtotal_loop (items inv) (F64.zero, F64.zero) self) as [[[s f]|e] self1];
    cbn in H1; subst self1; [|reflexivity].
  rewrite bind_unfold.
  pose proof (_coupon_discount_state s (coupon inv) [] self) as H2.
  destruct (_coupon_discount s (coupon inv) [] self) as [[[cd w]|e] self2];
    cbn in H2; subst self2; reflexivity.
Qed.

Lemma compute_total_state inv self : snd (compute_total inv self) = self.
Proof.
  unfold compute_total. rewrite bind_unfold.
  pose proof (compute_total_body_state inv self) as H.
  destruct (compute_total_body inv self) as [[l|e] self']; cbn in H; subst; reflexivity.
Qed.

(** ** Comparison, maximum and commutativity *)

Lemma add_comm (x y : float) : F64.add x y = F64.add y x.
Proof.
  destruct x as [[]|[]| |sx mx ex], y as [[]|[]| |sy my ey]; try reflexivity.
  unfold F64.add, SFadd. rewrite (Z.min_comm ex ey). f_equal. apply Z.add_comm.
Qed.

Lemma add_zero_swap (x y : float) :
  F64.add (F64.add F64.zero x) y = F64.add (F64.add F64.zero y) x.
Proof.
  destruct x as [[]|[]| |sx mx ex], y as [[]|[]| |sy my ey]; try reflexivity.
  change (F64.add F64.zero (S754_finite sx mx ex)) with (S754_finite sx mx ex).
  change (F64.add F64.zero (S754_finite sy my ey)) with (S754_finite sy my ey).
  apply add_comm.
Qed.

Lemma py_max_zero_nan (x : float) : F64.is_nan (py_max x F64.zero) = F64.is_nan x.
Proof. float_cases x; reflexivity. Qed.

Lemma py_max_zero_geb (x : float) :
  F64.geb (py_max x F64.zero) F64.zero = negb (F64.is_nan x).
Proof. float_cases x; reflexivity. Qed.

Lemma py_max_zero_nonneg (x : float) :
  F64.is_nan x = false -> nonneg (py_max x F64.zero) = true.
Proof. float_cases x; try reflexivity; discriminate. Qed.

Lemma ltb_100_300 (x : float) :
  F64.ltb x (F64.of_int 100) = true -> F64.ltb x (F64.of_int 300) = true.
Proof.
  float_cases x; try reflexivity; try discriminate.
  change (F64.of_int 100) with (S754_finite false 7036874417766400 (-46)).
  change (F64.of_int 300) with (S754_finite false 5277655813324800 (-44)).
  unfold F64.ltb, SFltb, SFcompare.
  destruct (Z.compare_spec e (-46)) as [->| |]; try discriminate.
  - intros _. reflexivity.
  - intros _. destruct (Z.compare_spec e (-44)); reflexivity || lia.
Qed.

(** ** Exact arithmetic on integer-valued doubles *)

Lemma iter_pos_comm {A : Type} (f : A -> A) (p : positive) (x : A) :
  SpecFloat.iter_pos f p (f x) = f (SpecFloat.iter_pos f p x).
Proof.
  revert x. induction p as [p IH|p IH|]; intros x; cbn [SpecFloat.iter_pos].
  - rewrite !IH. reflexivity.
  - rewrite !IH. reflexivity.
  - reflexivity.
Qed.

Lemma iter_pos_succ {A : Type} (f : A -> A) (p : positive) (x : A) :
  SpecFloat.iter_pos f (Pos.succ p) x = SpecFloat.iter_pos f p (f x).
Proof.
  revert x. induction p as [p IH|p IH|]; intros x.
  - change (SpecFloat.iter_pos f (Pos.succ p) (SpecFloat.iter_pos f (Pos.succ p) x) =
            SpecFloat.iter_pos f p (SpecFloat.iter_pos f p (f (f x)))).
    rewrite !IH, !iter_pos_comm. reflexivity.
  - reflexivity.
  - reflexivity.
Qed.

Lemma shr_exact (k m : positive) :
  SpecFloat.iter_pos shr_1 k (Build_shr_record (Zpos (Pos.iter xO m k)) false false) =
  Build_shr_record (Zpos m) false false.
Proof.
  induction k as [|k IH] using Pos.peano_ind.
  - reflexivity.
  - rewrite iter_pos_succ, Pos.iter_succ. cbn [shr_1 orb]. exact IH.
Qed.

Lemma digits_size (p : positive) : digits2_pos p = Pos.size p.
Proof. induction p as [p IH|p IH|]; cbn; rewrite ?IH; reflexivity. Qed.

Lemma digits_pos (p : positive) : 0 < digits p.
Proof. unfold digits. lia. Qed.

Lemma digits_bounds (p : positive) : 2 ^ (digits p - 1) <= Zpos p < 2 ^ digits p.
Proof.
  unfold digits. rewrite digits_size. split.
  - pose proof (Pos.size_le p) as H.
    assert (H2 : 2 ^ Zpos (Pos.size p) <= 2 * Zpos p).
    { change 2 with (Zpos 2) at 1. rewrite <- Pos2Z.inj_pow. lia. }
    replace (Zpos (Pos.size p)) with (Z.succ (Zpos (Pos.size p) - 1)) in H2 by lia.
    rewrite Z.pow_succ_r in H2 by lia. lia.
  - pose proof (Pos.size_gt p) as H.
    change 2 with (Zpos 2). rewrite <- Pos2Z.inj_pow. lia.
Qed.

Lemma digits_unique (p : positive) (d : Z) :
  2 ^ (d - 1) <= Zpos p < 2 ^ d -> digits p = d.
Proof.
  intros [Hl Hu]. pose proof (digits_bounds p) as [Hl' Hu'].
  pose proof (digits_pos p).
  assert (0 < d).
  { destruct (Z.ltb_spec 0 d); [assumption|].
    destruct (Z.eq_dec d 0) as [->|]; [cbn in Hu; lia|].
    rewrite Z.pow_neg_r in Hu by lia. lia. }
  destruct (Z.lt_trichotomy (digits p) d) as [Hlt|[Heq|Hgt]]; [|assumption|].
  - assert (2 ^ digits p <= 2 ^ (d - 1)) by (apply Z.pow_le_mono_r; lia). lia.
  - assert (2 ^ d <= 2 ^ (digits p - 1)) by (apply Z.pow_le_mono_r; lia). lia.
Qed.

Lemma iter_xO_mul (m k : positive) : Zpos (Pos.iter xO m k) = Zpos m * 2 ^ Zpos k.
Proof.
  induction k as [|k IH] using Pos.peano_ind.
  - cbn. lia.
  - rewrite Pos.iter_succ, Pos2Z.inj_xO, IH, Pos2Z.inj_succ, Z.pow_succ_r by lia. lia.
Qed.

Lemma digits_mul_pow2 (m : positive) (k : Z) (r : positive) :
  0 <= k -> Zpos r = Zpos m * 2 ^ k -> digits r = digits m + k.
Proof.
  intros Hk Hr. apply digits_unique. rewrite Hr.
  pose proof (digits_bounds m) as [Hl Hu]. pose proof (digits_pos m).
  replace (digits m + k - 1) with ((digits m - 1) + k) by lia.
  rewrite !Z.pow_add_r by lia.
  assert (0 < 2 ^ k) by (apply Z.pow_pos_nonneg; lia). nia.
Qed.

Lemma digits_le (p : positive) (n : Z) : Zpos p < 2 ^ n -> digits p <= n.
Proof.
  intros H. pose proof (digits_bounds p) as [Hl _]. pose proof (digits_pos p).
  destruct (Z.le_gt_cases (digits p) n) as [|Hgt]; [assumption|].
  destruct (Z.le_gt_cases 0 n) as [Hn|Hn].
  - assert (2 ^ n <= 2 ^ (digits p - 1)) by (apply Z.pow_le_mono_r; lia). lia.
  - rewrite Z.pow_neg_r in H by lia. lia.
Qed.

Lemma digits_mul_ge (a b : positive) : digits a + digits b - 1 <= digits (a * b).
Proof.
  pose proof (digits_bounds a) as [Ha _]. pose proof (digits_bounds b) as [Hb _].
  pose proof (digits_bounds (a * b)) as [_ Hab].
  pose proof (digits_pos a). pose proof (digits_pos b).
  assert (Hlow : 2 ^ (digits a - 1 + (digits b - 1)) <= Zpos (a * b)).
  { rewrite Z.pow_add_r, Pos2Z.inj_mul by lia.
    apply Z.mul_le_mono_nonneg; try assumption; apply Z.pow_nonneg; lia. }
  destruct (Z.le_gt_cases (digits a + digits b - 1) (digits (a * b))) as [|Hgt];
    [assumption|].
  assert (2 ^ digits (a * b) <= 2 ^ (digits a - 1 + (digits b - 1)))
    by (apply Z.pow_le_mono_r; lia).
  lia.
Qed.

Lemma fexp_spec (x : Z) : fexp 53 1024 x = Z.max (x - 53) (-1074).
Proof. reflexivity. Qed.

Lemma int_double_spec (s : bool) (n : positive) :
  digits n <= 53 ->
  exists m, int_double s n = S754_finite s m (digits n - 53) /\
            Zpos m = Zpos n * 2 ^ (53 - digits n) /\ digits m = 53.
Proof.
  intros Hd. unfold int_double, shl_align. rewrite Z.sub_0_r.
  destruct (digits n - 53) as [|k|k] eqn:Hk; try lia.
  - exists n. replace (53 - digits n) with 0 by lia. rewrite Z.mul_1_r.
    repeat split. lia.
  - exists (Pos.iter xO n k). repeat split.
    + rewrite iter_xO_mul. f_equal. f_equal. lia.
    + rewrite (digits_mul_pow2 n (Zpos k) _); [lia|lia|apply iter_xO_mul].
Qed.

Lemma shl_align_value (m : positive) (ex ex' : Z) :
  ex' <= ex ->
  snd (shl_align m ex ex') = ex' /\
  Zpos (fst (shl_align m ex ex')) = Zpos m * 2 ^ (ex - ex').
Proof.
  intros H. unfold shl_align.
  destruct (ex' - ex) as [|k|k] eqn:Hk; try lia; cbn [fst snd].
  - replace (ex - ex') with 0 by lia. lia.
  - rewrite iter_xO_mul. split; [reflexivity|]. f_equal. f_equal. lia.
Qed.

(** Rounding a mantissa that carries an integer of at most 53 bits is exact. *)
Lemma round_aux_exact (s : bool) (n r : positive) (j : Z) :
  digits n <= 53 -> 53 - digits n <= j -> Zpos r = Zpos n * 2 ^ j ->
  binary_round_aux 53 1024 s (Zpos r) (- j) loc_Exact = int_double s n.
Proof.
  intros Hd Hj Hr. pose proof (digits_pos n) as Hpos.
  assert (Hdr : digits r = digits n + j) by (apply digits_mul_pow2; [lia|exact Hr]).
  destruct (int_double_spec s n Hd) as (m & -> & Hm & Hdm).
  assert (Hrm : Zpos r = Zpos m * 2 ^ (digits n - 53 + j)).
  { rewrite Hr, Hm, <- Z.mul_assoc, <- Z.pow_add_r by lia. f_equal. f_equal. lia. }
  assert (Hsecond :
    shr_fexp 53 1024 (Zpos m) (digits n - 53) loc_Exact =
    (Build_shr_record (Zpos m) false false, digits n - 53)).
  { unfold shr_fexp. cbn [Zdigits2]. fold (digits m). rewrite Hdm.
    rewrite fexp_spec.
    replace (Z.max (53 + (digits n - 53) - 53) (-1074) - (digits n - 53)) with 0 by lia.
    reflexivity. }
  unfold binary_round_aux.
  assert (Hfirst :
    shr_fexp 53 1024 (Zpos r) (- j) loc_Exact =
    (Build_shr_record (Zpos m) false false, digits n - 53)).
  { unfold shr_fexp. cbn [Zdigits2]. fold (digits r). rewrite Hdr.
    rewrite fexp_spec.
    replace (Z.max (digits n + j + - j - 53) (-1074) - - j)
      with (digits n - 53 + j) by lia.
    destruct (digits n - 53 + j) as [|k|k] eqn:Hk; try lia.
    - cbn [shr shr_record_of_loc]. rewrite Z.pow_0_r, Z.mul_1_r in Hrm.
      injection Hrm as ->. f_equal. lia.
    - cbn [shr shr_record_of_loc].
      rewrite <- iter_xO_mul in Hrm. injection Hrm as ->.
      rewrite shr_exact. f_equal. lia. }
  rewrite Hfirst. cbn [shr_m loc_of_shr_record round_nearest_even].
  rewrite Hsecond. cbn [shr_m].
  destruct (Z.leb_spec (digits n - 53) (1024 - 53)); [reflexivity|lia].
Qed.

Lemma round_exact (s : bool) (n r : positive) (j : Z) :
  digits n <= 53 -> 0 <= j -> Zpos r = Zpos n * 2 ^ j ->
  binary_round 53 1024 s r (- j) = int_double s n.
Proof.
  intros Hd Hj Hr. pose proof (digits_pos n) as Hpos.
  assert (Hdr : digits r = digits n + j) by (apply digits_mul_pow2; [lia|exact Hr]).
  unfold binary_round. fold (digits r). rewrite Hdr.
  rewrite fexp_spec.
  replace (Z.max (digits n + j + - j - 53) (-1074)) with (digits n - 53) by lia.
  destruct (Z.le_gt_cases (digits n - 53) (- j)) as [Hle|Hgt].
  - pose proof (shl_align_value r (- j) (digits n - 53) Hle) as [He Hm].
    destruct (shl_align r (- j) (digits n - 53)) as [mz ez]. cbn [fst snd] in He, Hm.
    subst ez. replace (digits n - 53) with (- (53 - digits n)) by lia.
    apply round_aux_exact; [lia|lia|].
    rewrite Hm, Hr, <- Z.mul_assoc, <- Z.pow_add_r by lia. f_equal. f_equal. lia.
  - unfold shl_align.
    destruct (digits n - 53 - - j) as [|k|k] eqn:Hk; try lia.
    apply round_aux_exact; [lia|lia|exact Hr].
Qed.

Lemma of_int_pos (n : positive) :
  digits n <= 53 -> F64.of_int (Zpos n) = int_double false n.
Proof.
  intros Hd. unfold F64.of_int, binary_normalize.
  change 0 with (- 0). apply round_exact; [exact Hd|lia|lia].
Qed.

Lemma of_int_zero : F64.of_int 0 = F64.zero.
Proof. reflexivity. Qed.

Lemma add_of_int (a b : Z) :
  0 <= a -> 0 <= b -> a + b < 2 ^ 53 ->
  F64.add (F64.of_int a) (F64.of_int b) = F64.of_int (a + b).
Proof.
  intros Ha Hb Hab.
  destruct a as [|a|a]; [|clear Ha|lia]; destruct b as [|b|b]; try lia.
  - reflexivity.
  - rewrite Z.add_0_l, of_int_zero, of_int_pos by (apply digits_le; lia).
    destruct (int_double_spec false b) as (m & -> & _); [apply digits_le; lia|].
    reflexivity.
  - rewrite Z.add_0_r, of_int_zero, of_int_pos by (apply digits_le; lia).
    destruct (int_double_spec false a) as (m & -> & _); [apply digits_le; lia|].
    reflexivity.
  - assert (Hda : digits a <= 53) by (apply digits_le; lia).
    assert (Hdb : digits b <= 53) by (apply digits_le; lia).
    assert (Hds : digits (a + b) <= 53) by (apply digits_le; lia).
    change (Z.pos a + Z.pos b) with (Z.pos (a + b)). rewrite !of_int_pos by assumption.
    destruct (int_double_spec false a Hda) as (ma & -> & Hma & _).
    destruct (int_double_spec false b Hdb) as (mb & -> & Hmb & _).
    unfold F64.add, SFadd, cond_Zopp.
    set (ez := Z.min (digits a - 53) (digits b - 53)).
    destruct (shl_align_value ma (digits a - 53) ez) as [_ Va]; [subst ez; lia|].
    destruct (shl_align_value mb (digits b - 53) ez) as [_ Vb]; [subst ez; lia|].
    rewrite <- Pos2Z.inj_add. unfold binary_normalize.
    replace ez with (- - ez) at 3 by lia.
    apply round_exact; [assumption|subst ez; lia|].
    rewrite Pos2Z.inj_add, Va, Vb, Hma, Hmb, Pos2Z.inj_add.
    rewrite <- !Z.mul_assoc, <- !Z.pow_add_r by (subst ez; lia).
    replace (53 - digits a + (digits a - 53 - ez)) with (- ez) by lia.
    replace (53 - digits b + (digits b - 53 - ez)) with (- ez) by lia.
    lia.
Qed.

Lemma mul_of_int (a b : Z) :
  0 <= a < 2 ^ 53 -> 0 <= b < 2 ^ 53 -> a * b < 2 ^ 53 ->
  F64.mul (F64.of_int a) (F64.of_int b) = F64.of_int (a * b).
Proof.
  intros Ha Hb Hab.
  destruct a as [|a|a]; [| |lia]; (destruct b as [|b|b]; [| |lia]).
  - reflexivity.
  - rewrite Z.mul_0_l, of_int_zero, of_int_pos by (apply digits_le; lia).
    destruct (int_double_spec false b) as (m & -> & _); [apply digits_le; lia|].
    reflexivity.
  - rewrite Z.mul_0_r, of_int_zero, of_int_pos by (apply digits_le; lia).
    destruct (int_double_spec false a) as (m & -> & _); [apply digits_le; lia|].
    reflexivity.
  - assert (Hda : digits a <= 53) by (apply digits_le; lia).
    assert (Hdb : digits b <= 53) by (apply digits_le; lia).
    assert (Hdp : digits (a * b) <= 53) by (apply digits_le; lia).
    pose proof (digits_mul_ge a b) as Hge.
    change (Z.pos a * Z.pos b) with (Z.pos (a * b)). rewrite !of_int_pos by assumption.
    destruct (int_double_spec false a Hda) as (ma & -> & Hma & _).
    destruct (int_double_spec false b Hdb) as (mb & -> & Hmb & _).
    unfold F64.mul, SFmul. cbn [xorb].
    replace (digits a - 53 + (digits b - 53))
      with (- (106 - digits a - digits b)) by lia.
    apply round_aux_exact; [assumption|lia|].
    rewrite !Pos2Z.inj_mul, Hma, Hmb.
    replace (106 - digits a - digits b)
      with ((53 - digits a) + (53 - digits b)) by lia.
    rewrite Z.pow_add_r by lia. ring.
Qed.

Lemma float_of_int_small (n : Z) :
  0 <= n < 2 ^ 53 -> float_of_int n = Return (F64.of_int n).
Proof.
  intros Hn. unfold float_of_int. destruct n as [|n|n]; [reflexivity| |lia].
  rewrite of_int_pos by (apply digits_le; lia).
  destruct (int_double_spec false n) as (m & -> & _); [apply digits_le; lia|].
  reflexivity.
Qed.

(** ** The integers that convert to a double *)

Lemma shr_1_spec (a : Z) (r s : bool) :
  0 <= a ->
  shr_1 (Build_shr_record a r s) = Build_shr_record (Z.div2 a) (Z.odd a) (r || s).
Proof. intros Ha. destruct a as [|[p|p|]|p]; try reflexivity; lia. Qed.

Lemma shr_iter_spec (k : positive) (a : Z) :
  0 <= a ->
  exists s,
    SpecFloat.iter_pos shr_1 k (Build_shr_record a false false) =
    Build_shr_record (a / 2 ^ Zpos k) (Z.odd (a / 2 ^ (Zpos k - 1))) s.
Proof.
  intros Ha. induction k as [|k [s IH]] using Pos.peano_ind.
  - exists false. cbn [SpecFloat.iter_pos]. rewrite shr_1_spec by exact Ha.
    rewrite Z.div2_div. cbn [orb]. f_equal. f_equal. rewrite Z.div_1_r. reflexivity.
  - rewrite iter_pos_succ, iter_pos_comm, IH.
    assert (Hq : 0 <= a / 2 ^ Zpos k) by (apply Z.div_pos; lia).
    rewrite shr_1_spec by exact Hq. eexists. f_equal.
    + rewrite Z.div2_div, Z.div_div, Pos2Z.inj_succ, Z.pow_succ_r by lia.
      f_equal. lia.
    + f_equal. f_equal. f_equal. lia.
Qed.

Lemma round_nearest_even_bounds (q : Z) (l : location) :
  q <= round_nearest_even q l <= q + 1.
Proof. destruct l as [|[]]; cbn; try lia. destruct (Z.even q); lia. Qed.

Lemma round_nearest_even_down (q : Z) (s : bool) :
  round_nearest_even q (loc_of_shr_record (Build_shr_record q false s)) = q.
Proof. destruct s; reflexivity. Qed.

(** The double of an integer of more than 53 bits: the bits below the 53
    leading ones are rounded away, and a carry takes one more exponent. *)
Lemma of_int_large (p : positive) (k : positive) :
  Zpos k = digits p - 53 ->
  exists (s : bool) (m : positive),
    round_nearest_even (Zpos p / 2 ^ Zpos k)
      (loc_of_shr_record
         (Build_shr_record (Zpos p / 2 ^ Zpos k)
            (Z.odd (Zpos p / 2 ^ (Zpos k - 1))) s)) = Zpos m /\
    2 ^ 52 <= Zpos p / 2 ^ Zpos k < 2 ^ 53 /\
    F64.of_int (Zpos p) =
      if Zpos m <? 2 ^ 53 then
        if Zpos k <=? 971 then S754_finite false m (Zpos k) else S754_infinity false
      else
        if Zpos k + 1 <=? 971 then S754_finite false (2 ^ 52) (Zpos k + 1)
        else S754_infinity false.
Proof.
  intros Ek. pose proof (digits_bounds p) as [Hlo Hhi].
  unfold F64.of_int, binary_normalize, binary_round, F64.prec, F64.emax.
  fold (digits p).
  replace (digits p + 0) with (digits p) by lia. rewrite fexp_spec.
  replace (Z.max (digits p - 53) (-1074)) with (Zpos k) by lia.
  unfold shl_align. rewrite Z.sub_0_r.
  unfold binary_round_aux, shr_fexp at 1. cbn [Zdigits2]. fold (digits p).
  replace (digits p + 0) with (digits p) by lia. rewrite fexp_spec.
  replace (Z.max (digits p - 53) (-1074) - 0) with (Zpos k) by lia.
  cbn [shr shr_record_of_loc]. rewrite Z.add_0_l.
  destruct (shr_iter_spec k (Zpos p) ltac:(lia)) as [s ->]. cbn [shr_m].
  set (q := Zpos p / 2 ^ Zpos k).
  set (r := Z.odd (Zpos p / 2 ^ (Zpos k - 1))).
  assert (Hpow : 0 < 2 ^ Zpos k) by (apply Z.pow_pos_nonneg; lia).
  assert (Hq : 2 ^ 52 <= q < 2 ^ 53).
  { subst q. split.
    - apply Z.div_le_lower_bound; [lia|].
      rewrite Z.mul_comm, <- Z.pow_add_r by lia.
      replace (52 + Zpos k) with (digits p - 1) by lia. exact Hlo.
    - apply Z.div_lt_upper_bound; [lia|].
      rewrite <- Z.pow_add_r by lia.
      replace (Zpos k + 53) with (digits p) by lia. exact Hhi. }
  pose proof (round_nearest_even_bounds q
    (loc_of_shr_record (Build_shr_record q r s))) as Hm.
  exists s.
  destruct (round_nearest_even q (loc_of_shr_record (Build_shr_record q r s)))
    as [|m|m] eqn:Em; try lia.
  exists m. split; [reflexivity|]. split; [exact Hq|].
  unfold shr_fexp. cbn [Zdigits2]. fold (digits m).
  destruct (Z.ltb_spec (Zpos m) (2 ^ 53)) as [Hlt|Hge].
  - rewrite (digits_unique m 53) by (change (53 - 1) with 52; lia).
    rewrite fexp_spec.
    replace (Z.max (53 + Z.pos k - 53) (-1074) - Z.pos k) with 0 by lia.
    reflexivity.
  - assert (Hm1 : m = 9007199254740992%positive) by lia. subst m.
    change (digits 9007199254740992) with 54.
    rewrite fexp_spec.
    replace (Z.max (54 + Z.pos k - 53) (-1074) - Z.pos k) with 1 by lia.
    reflexivity.
Qed.

Lemma of_int_below_bound (p : positive) :
  Zpos p < float_int_bound -> F64.is_finite (F64.of_int (Zpos p)) = true.
Proof.
  intros Hp. pose proof (digits_bounds p) as [Hlo Hhi].
  destruct (Z.le_gt_cases (digits p) 53) as [Hd|Hd].
  { rewrite of_int_pos by exact Hd.
    destruct (int_double_spec false p Hd) as (m & -> & _). reflexivity. }
  assert (Hd' : digits p <= 1024).
  { destruct (Z.le_gt_cases (digits p) 1024) as [|Hgt]; [assumption|].
    assert (2 ^ 1024 <= 2 ^ (digits p - 1)) by (apply Z.pow_le_mono_r; lia).
    unfold float_int_bound in Hp. lia. }
  destruct (digits p - 53) as [|k|k] eqn:Ek; try lia.
  destruct (of_int_large p k ltac:(lia)) as (s & m & Hm & Hq & ->).
  pose proof (round_nearest_even_bounds (Zpos p / 2 ^ Zpos k)
    (loc_of_shr_record
       (Build_shr_record (Zpos p / 2 ^ Zpos k)
          (Z.odd (Zpos p / 2 ^ (Zpos k - 1))) s))) as Hb.
  rewrite Hm in Hb.
  destruct (Z.le_gt_cases (Zpos k) 970) as [Hk|Hk].
  - destruct (Zpos m <? 2 ^ 53).
    + destruct (Z.leb_spec (Zpos k) 971); [reflexivity|lia].
    + destruct (Z.leb_spec (Zpos k + 1) 971); [reflexivity|lia].
  - assert (Hkp : Zpos k = 971) by lia. rewrite Hkp in *.
    change (971 - 1) with 970 in *.
    assert (Hlt : Zpos p / 2 ^ 970 < 2 ^ 54 - 1).
    { apply Z.div_lt_upper_bound; [lia|]. unfold float_int_bound in Hp.
      change (2 ^ 970 * (2 ^ 54 - 1)) with (2 ^ 1024 - 2 ^ 970). exact Hp. }
    assert (Hhalf : Zpos p / 2 ^ 971 = (Zpos p / 2 ^ 970) / 2).
    { rewrite Z.div_div by lia. change (2 ^ 970 * 2) with (2 ^ 971). reflexivity. }
    assert (Hmlt : Zpos m < 2 ^ 53).
    { destruct (Z.odd (Zpos p / 2 ^ 970)) eqn:Er.
      - rewrite Z.odd_spec in Er. destruct Er as [h Hh].
        rewrite Hh in Hhalf, Hlt.
        replace ((2 * h + 1) / 2) with h in Hhalf
          by (apply Z.div_unique with 1; lia).
        lia.
      - rewrite round_nearest_even_down in Hm. lia. }
    destruct (Z.ltb_spec (Zpos m) (2 ^ 53)); [reflexivity|lia].
Qed.

Lemma of_int_beyond_bound (p : positive) :
  float_int_bound <= Zpos p -> F64.of_int (Zpos p) = S754_infinity false.
Proof.
  intros Hp. pose proof (digits_bounds p) as [Hlo Hhi].
  assert (Hd : 1024 <= digits p).
  { destruct (Z.le_gt_cases 1024 (digits p)) as [|Hlt]; [assumption|].
    assert (2 ^ digits p <= 2 ^ 1023) by (apply Z.pow_le_mono_r; lia).
    unfold float_int_bound in Hp. lia. }
  destruct (digits p - 53) as [|k|k] eqn:Ek; try lia.
  destruct (of_int_large p k ltac:(lia)) as (s & m & Hm & Hq & ->).
  pose proof (round_nearest_even_bounds (Zpos p / 2 ^ Zpos k)
    (loc_of_shr_record
       (Build_shr_record (Zpos p / 2 ^ Zpos k)
          (Z.odd (Zpos p / 2 ^ (Zpos k - 1))) s))) as Hb.
  rewrite Hm in Hb.
  destruct (Z.le_gt_cases 972 (Zpos k)) as [Hk|Hk].
  - destruct (Zpos m <? 2 ^ 53).
    + destruct (Z.leb_spec (Zpos k) 971); [lia|reflexivity].
    + destruct (Z.leb_spec (Zpos k + 1) 971); [lia|reflexivity].
  - assert (Hkp : Zpos k = 971) by lia. rewrite Hkp in *.
    change (971 - 1) with 970 in *.
    assert (Hge : 2 ^ 54 - 1 <= Zpos p / 2 ^ 970).
    { apply Z.div_le_lower_bound; [lia|]. unfold float_int_bound in Hp.
      change (2 ^ 970 * (2 ^ 54 - 1)) with (2 ^ 1024 - 2 ^ 970). exact Hp. }
    assert (Hlt : Zpos p / 2 ^ 970 < 2 ^ 54).
    { apply Z.div_lt_upper_bound; [lia|].
      change (2 ^ 970 * 2 ^ 54) with (2 ^ 1024).
      replace (digits p) with 1024 in Hhi by lia. exact Hhi. }
    assert (Hval : Zpos p / 2 ^ 970 = 2 ^ 54 - 1) by lia.
    assert (Hhalf : Zpos p / 2 ^ 971 = 2 ^ 53 - 1).
    { replace (2 ^ 971) with (2 ^ 970 * 2) by reflexivity.
      rewrite <- Z.div_div, Hval by lia. reflexivity. }
    rewrite Hval, Hhalf in Hm.
    assert (Hm53 : Zpos m = 2 ^ 53)
      by (destruct s; vm_compute in Hm; injection Hm as <-; reflexivity).
    rewrite Hm53. reflexivity.
Qed.

(** [float(n)] of a non-negative int raises exactly from the bound on. *)
Lemma fits_float_iff (n : Z) :
  0 <= n -> fits_float n = true <-> n < float_int_bound.
Proof.
  intros Hn. unfold fits_float, float_of_int. destruct n as [|p|p]; try lia.
  - split; [intros _; reflexivity|reflexivity].
  - destruct (Z.lt_ge_cases (Zpos p) float_int_bound) as [Hlt|Hge].
    + pose proof (of_int_below_bound p Hlt) as Hfin.
      destruct (F64.of_int (Zpos p)); try discriminate; tauto.
    + rewrite (of_int_beyond_bound p Hge). split; [discriminate|lia].
Qed.

(** ** Signs and classes of results *)

Lemma iter_pos_invariant {A : Type} (f : A -> A) (Inv : A -> Prop) :
  (forall x, Inv x -> Inv (f x)) ->
  forall p x, Inv x -> Inv (SpecFloat.iter_pos f p x).
Proof.
  intros Hf. induction p as [p IH|p IH|]; intros x Hx; cbn [SpecFloat.iter_pos]; auto.
Qed.

Lemma shr_1_nonneg mrs : 0 <= shr_m mrs -> 0 <= shr_m (shr_1 mrs).
Proof.
  destruct mrs as [m r s]. cbn [shr_m]. intros Hm.
  destruct m as [|[p|p|]|p]; cbn; lia.
Qed.

Lemma shr_fexp_nonneg m e l : 0 <= m -> 0 <= shr_m (fst (shr_fexp 53 1024 m e l)).
Proof.
  intros Hm. unfold shr_fexp, shr.
  assert (H0 : 0 <= shr_m (shr_record_of_loc m l))
    by (destruct l as [|[]]; exact Hm).
  destruct (fexp 53 1024 (Zdigits2 m + e) - e) as [|k|k]; cbn [fst]; try exact H0.
  apply iter_pos_invariant; [exact shr_1_nonneg|exact H0].
Qed.

Lemma round_nearest_even_nonneg m l : 0 <= m -> 0 <= round_nearest_even m l.
Proof.
  intros Hm. destruct l as [|[]]; cbn; try lia. destruct (Z.even m); lia.
Qed.

(** A rounded result has the sign it was given and is never a NaN. *)
Lemma round_aux_sign (s : bool) (m : positive) (e : Z) (l : location) :
  match binary_round_aux 53 1024 s (Zpos m) e l with
  | S754_nan => False
  | S754_zero s' | S754_infinity s' | S754_finite s' _ _ => s' = s
  end.
Proof.
  unfold binary_round_aux.
  pose proof (shr_fexp_nonneg (Zpos m) e l ltac:(lia)) as H1.
  destruct (shr_fexp 53 1024 (Zpos m) e l) as [mrs' e']. cbn [fst] in H1.
  pose proof (shr_fexp_nonneg
    (round_nearest_even (shr_m mrs') (loc_of_shr_record mrs')) e' loc_Exact
    (round_nearest_even_nonneg _ _ H1)) as H2.
  destruct (shr_fexp 53 1024 _ e' loc_Exact) as [mrs'' e'']. cbn [fst] in H2.
  destruct (shr_m mrs'') as [|p|p]; [reflexivity| |lia].
  destruct (e'' <=? 1024 - 53); reflexivity.
Qed.

Lemma round_sign (s : bool) (m : positive) (e : Z) :
  match binary_round 53 1024 s m e with
  | S754_nan => False
  | S754_zero s' | S754_infinity s' | S754_finite s' _ _ => s' = s
  end.
Proof.
  unfold binary_round. destruct (shl_align m e _) as [mz ez]. apply round_aux_sign.
Qed.

Lemma mul_nonneg (x y : float) :
  nonneg_or_nan x = true -> nonneg y = true -> F64.is_finite y = true ->
  nonneg_or_nan (F64.mul x y) = true.
Proof.
  destruct x as [sx|[]| |[] mx ex], y as [sy|[]| |[] my ey];
    try discriminate; try reflexivity.
  intros _ _ _. unfold F64.mul, SFmul. cbn [xorb].
  pose proof (round_aux_sign false (mx * my) (ex + ey) loc_Exact) as H.
  destruct (binary_round_aux _ _ _ _ _ _) as [s|s| |s m e];
    try contradiction; subst; reflexivity.
Qed.

Lemma mul_nonneg_finite (x y : float) :
  nonneg x = true -> F64.is_finite x = true ->
  nonneg y = true -> F64.is_finite y = true ->
  nonneg (F64.mul x y) = true.
Proof.
  destruct x as [sx|[]| |[] mx ex], y as [sy|[]| |[] my ey];
    try discriminate; try reflexivity.
  intros _ _ _ _. unfold F64.mul, SFmul. cbn [xorb].
  pose proof (round_aux_sign false (mx * my) (ex + ey) loc_Exact) as H.
  destruct (binary_round_aux _ _ _ _ _ _) as [s|s| |s m e];
    try contradiction; subst; reflexivity.
Qed.

Lemma mul_nonneg_positive (x : float) (m : positive) (e : Z) :
  nonneg x = true -> nonneg (F64.mul x (S754_finite false m e)) = true.
Proof.
  destruct x as [sx|[]| |[] mx ex]; try discriminate; try reflexivity.
  intros _. unfold F64.mul, SFmul. cbn [xorb].
  pose proof (round_aux_sign false (mx * m) (ex + e) loc_Exact) as H.
  destruct (binary_round_aux _ _ _ _ _ _) as [s|s| |s m' e'];
    try contradiction; subst; reflexivity.
Qed.

Lemma add_nonneg (x y : float) :
  nonneg x = true -> nonneg y = true -> nonneg (F64.add x y) = true.
Proof.
  destruct x as [[]|[]| |[] mx ex], y as [[]|[]| |[] my ey];
    try discriminate; try reflexivity.
  intros _ _. unfold F64.add, SFadd, cond_Zopp.
  rewrite <- Pos2Z.inj_add. unfold binary_normalize.
  pose proof (round_sign false
    (fst (shl_align mx ex (Z.min ex ey)) + fst (shl_align my ey (Z.min ex ey)))
    (Z.min ex ey)) as H.
  destruct (binary_round _ _ _ _ _) as [s|s| |s m e];
    try contradiction; subst; reflexivity.
Qed.

Lemma add_nonneg_or_nan (x y : float) :
  nonneg_or_nan x = true -> nonneg_or_nan y = true ->
  nonneg_or_nan (F64.add x y) = true.
Proof.
  unfold nonneg_or_nan. intros Hx Hy.
  destruct (F64.is_nan x) eqn:Nx.
  { destruct x; try discriminate. reflexivity. }
  destruct (F64.is_nan y) eqn:Ny.
  { destruct y; try discriminate. destruct x as [[]|[]| |[] mx ex]; reflexivity. }
  cbn [orb] in Hx, Hy. rewrite (add_nonneg x y Hx Hy). apply orb_true_r.
Qed.

Lemma sub_finite_not_nan (x y : float) :
  F64.is_finite x = true -> F64.is_finite y = true -> F64.is_nan (F64.sub x y) = false.
Proof.
  destruct x as [[]|[]| |sx mx ex], y as [[]|[]| |sy my ey];
    try discriminate; try reflexivity.
  intros _ _. unfold F64.sub, SFsub, binary_normalize.
  destruct (_ - _) as [|p|p]; [reflexivity| |].
  - pose proof (round_sign false p (Z.min ex ey)) as H.
    destruct (binary_round _ _ _ _ _); [reflexivity..|contradiction|reflexivity].
  - pose proof (round_sign true p (Z.min ex ey)) as H.
    destruct (binary_round _ _ _ _ _); [reflexivity..|contradiction|reflexivity].
Qed.

Lemma sub_nonneg_finite_not_nan (x y : float) :
  nonneg x = true -> F64.is_finite y = true -> F64.is_nan (F64.sub x y) = false.
Proof.
  intros Hx Hy. destruct x as [sx|[]| |sx mx ex] eqn:Ex; try discriminate.
  - rewrite <- Ex. apply sub_finite_not_nan; subst; auto.
  - destruct y as [[]|[]| |sy my ey]; try discriminate; reflexivity.
  - rewrite <- Ex. apply sub_finite_not_nan; subst; auto.
Qed.

Lemma finite_nonneg_or_nan (x : float) :
  F64.is_finite x = true -> nonneg_or_nan x = true -> nonneg x = true.
Proof. float_cases x; try reflexivity; discriminate. Qed.

Lemma float_of_int_positive (n : Z) (y : float) :
  0 < n -> float_of_int n = Return y -> nonneg y = true /\ F64.is_finite y = true.
Proof.
  intros Hn. unfold float_of_int, F64.of_int, binary_normalize.
  destruct n as [|p|p]; try lia.
  pose proof (round_sign false p 0) as H.
  destruct (binary_round _ _ _ _ _) as [s|s| |s m e]; try contradiction;
    cbn; intros E; try discriminate; injection E as <-; subst; auto.
Qed.

Lemma price_not_negative (x : float) :
  F64.ltb x (F64.of_int 0) = false -> nonneg_or_nan x = true.
Proof. float_cases x; try reflexivity; discriminate. Qed.

(** ** Magnitudes of rounded results *)

Lemma shr_1_m (mrs : shr_record) :
  0 <= shr_m mrs -> shr_m (shr_1 mrs) = Z.div2 (shr_m mrs).
Proof.
  destruct mrs as [m r s]. cbn [shr_m]. intros Hm.
  destruct m as [|[p|p|]|p]; try reflexivity; lia.
Qed.

Lemma shr_iter_m (k : positive) (mrs : shr_record) :
  0 <= shr_m mrs ->
  shr_m (SpecFloat.iter_pos shr_1 k mrs) = shr_m mrs / 2 ^ Zpos k.
Proof.
  intros Hm. induction k as [|k IH] using Pos.peano_ind.
  - cbn [SpecFloat.iter_pos]. rewrite shr_1_m, Z.div2_div by exact Hm. reflexivity.
  - rewrite iter_pos_succ, iter_pos_comm, shr_1_m, IH.
    + rewrite Z.div2_div, Z.div_div, Pos2Z.inj_succ, Z.pow_succ_r by lia.
      f_equal. lia.
    + rewrite IH. apply Z.div_pos; lia.
Qed.

Lemma Zdigits2_bounds (m : Z) :
  0 <= m -> 0 <= Zdigits2 m /\ m < 2 ^ Zdigits2 m.
Proof.
  intros Hm. destruct m as [|p|p]; try lia.
  - cbn. lia.
  - change (Zdigits2 (Zpos p)) with (digits p).
    pose proof (digits_bounds p). pose proof (digits_pos p). lia.
Qed.

Lemma Zdigits2_le (m n : Z) : 0 <= m -> 0 <= n -> m < 2 ^ n -> Zdigits2 m <= n.
Proof.
  intros Hm Hn H. destruct m as [|p|p]; try lia.
  - cbn. lia.
  - change (Zdigits2 (Zpos p)) with (digits p). apply digits_le, H.
Qed.

(** One shift of [shr_fexp]: the mantissa is divided by the power of two that
    brings the exponent up to the one of the format. *)
Lemma shr_fexp_spec (m e : Z) (l : location) :
  0 <= m ->
  let '(mrs, e') := shr_fexp 53 1024 m e l in
  e' = Z.max e (fexp 53 1024 (Zdigits2 m + e)) /\ shr_m mrs = m / 2 ^ (e' - e).
Proof.
  intros Hm. unfold shr_fexp, shr.
  assert (H0 : shr_m (shr_record_of_loc m l) = m) by (destruct l as [|[]]; reflexivity).
  destruct (fexp 53 1024 (Zdigits2 m + e) - e) as [|k|k] eqn:Ek.
  - split; [lia|]. rewrite H0. replace (e - e) with 0 by lia.
    rewrite Z.pow_0_r, Z.div_1_r. reflexivity.
  - split; [lia|]. rewrite shr_iter_m by lia. rewrite H0. f_equal. f_equal. lia.
  - split; [lia|]. rewrite H0. replace (e - e) with 0 by lia.
    rewrite Z.pow_0_r, Z.div_1_r. reflexivity.
Qed.

Lemma div_pow2_lt (m c j : Z) :
  0 <= m -> 0 <= j -> m < 2 ^ c -> m / 2 ^ j < 2 ^ Z.max (c - j) 0.
Proof.
  intros Hm Hj Hc.
  assert (Hpos : 0 < 2 ^ j) by (apply Z.pow_pos_nonneg; lia).
  destruct (Z.le_gt_cases j c) as [Hle|Hgt].
  - replace (Z.max (c - j) 0) with (c - j) by lia.
    apply Z.div_lt_upper_bound; [lia|].
    rewrite <- Z.pow_add_r by lia. replace (j + (c - j)) with c by lia. exact Hc.
  - replace (Z.max (c - j) 0) with 0 by lia. rewrite Z.pow_0_r.
    assert (m / 2 ^ j = 0); [|lia].
    apply Z.div_small. split; [lia|].
    destruct (Z.le_gt_cases 0 c) as [Hc0|Hc0].
    + apply Z.lt_le_trans with (2 ^ c); [exact Hc|]. apply Z.pow_le_mono_r; lia.
    + rewrite Z.pow_neg_r in Hc by lia. lia.
Qed.

(** The magnitude of a rounded result: a mantissa and an exponent that denote
    less than [2^c] round to at most [2^c], within the range of the format,
    and overflow only from [2^1024] on. *)
Lemma round_aux_magnitude (s : bool) (m : positive) (e : Z) (l : location) (c : Z) :
  Zpos m < 2 ^ (c - e) -> e <= c ->
  match binary_round_aux 53 1024 s (Zpos m) e l with
  | S754_finite _ m2 e2 =>
      in_range (S754_finite s m2 e2) /\
      Zpos m2 * 2 ^ (e2 + 1074) <= 2 ^ (Z.max c (-1074) + 1074)
  | S754_infinity _ => 971 < e \/ 1023 < c
  | S754_nan => False
  | S754_zero _ => True
  end.
Proof.
  intros Hm Hec. unfold binary_round_aux.
  pose proof (shr_fexp_spec (Zpos m) e l ltac:(lia)) as H1.
  destruct (shr_fexp 53 1024 (Zpos m) e l) as [mrs1 e1]. destruct H1 as [He1 Hm1].
  pose proof (round_nearest_even_bounds (shr_m mrs1) (loc_of_shr_record mrs1)) as Hr.
  set (m1 := round_nearest_even (shr_m mrs1) (loc_of_shr_record mrs1)) in *.
  rewrite fexp_spec in He1.
  assert (Hdm : Zdigits2 (Zpos m) <= c - e) by (apply Zdigits2_le; lia).
  assert (Hj : 0 <= e1 - e) by lia.
  assert (Hm1pos : 0 <= shr_m mrs1)
    by (rewrite Hm1; apply Z.div_pos; [lia|apply Z.pow_pos_nonneg; lia]).
  assert (Hm1lt : shr_m mrs1 < 2 ^ Z.max (c - e - (e1 - e)) 0)
    by (rewrite Hm1; apply div_pow2_lt; lia).
  set (t := Z.max c e1).
  replace (Z.max (c - e - (e1 - e)) 0) with (t - e1) in Hm1lt by lia.
  assert (Ht : 0 <= t - e1) by lia.
  assert (Hm1le : m1 <= 2 ^ (t - e1)) by lia.
  assert (Hdm1 : Zdigits2 m1 <= t - e1 + 1).
  { apply Zdigits2_le; [lia|lia|]. rewrite Z.pow_add_r, Z.pow_1_r by lia.
    assert (0 < 2 ^ (t - e1)) by (apply Z.pow_pos_nonneg; lia). lia. }
  pose proof (shr_fexp_spec m1 e1 loc_Exact ltac:(lia)) as H2.
  destruct (shr_fexp 53 1024 m1 e1 loc_Exact) as [mrs2 e2]. destruct H2 as [He2 Hm2].
  rewrite fexp_spec in He2.
  pose proof (Zdigits2_bounds m1 ltac:(lia)) as [Hd1 Hm1d].
  assert (Hj2 : 0 <= e2 - e1) by lia.
  assert (Hpow2 : 0 < 2 ^ (e2 - e1)) by (apply Z.pow_pos_nonneg; lia).
  assert (Hm2pos : 0 <= shr_m mrs2) by (rewrite Hm2; apply Z.div_pos; lia).
  destruct (shr_m mrs2) as [|p2|p2] eqn:Ep2; [exact I| |lia].
  destruct (Z.leb_spec e2 (1024 - 53)) as [Hle|Hgt].
  - split; [split; [|lia]|].
    + apply digits_le. rewrite Hm2.
      apply Z.lt_le_trans with (2 ^ Z.max (Zdigits2 m1 - (e2 - e1)) 0).
      * apply div_pow2_lt; lia.
      * apply Z.pow_le_mono_r; lia.
    + assert (Hfloor : Zpos p2 * 2 ^ (e2 - e1) <= m1).
      { rewrite Hm2, Z.mul_comm. apply Z.mul_div_le. lia. }
      replace (e2 + 1074) with ((e2 - e1) + (e1 + 1074)) by lia.
      rewrite Z.pow_add_r, Z.mul_assoc by lia.
      apply Z.le_trans with (2 ^ (t - e1) * 2 ^ (e1 + 1074)).
      * apply Z.mul_le_mono_nonneg_r; [apply Z.pow_nonneg; lia|lia].
      * rewrite <- Z.pow_add_r by lia. apply Z.pow_le_mono_r; lia.
  - destruct (Z.le_gt_cases e 971) as [He|He]; [|left; exact He].
    destruct (Z.le_gt_cases c 1023) as [Hc|Hc]; [|right; exact Hc].
    lia.
Qed.

(** Every rounded result is in the range of the format. *)
Lemma round_aux_in_range (s : bool) (m : positive) (e : Z) (l : location) :
  in_range (binary_round_aux 53 1024 s (Zpos m) e l).
Proof.
  pose proof (digits_bounds m) as [_ Hhi]. pose proof (digits_pos m).
  pose proof (round_aux_magnitude s m e l (digits m + e)) as Hmag.
  replace (digits m + e - e) with (digits m) in Hmag by lia.
  specialize (Hmag Hhi ltac:(lia)).
  pose proof (round_aux_sign s m e l) as Hs.
  destruct (binary_round_aux 53 1024 s (Zpos m) e l) as [s'|s'| |s' m2 e2];
    try exact I.
  subst s'. apply Hmag.
Qed.

Lemma shl_align_spec (m : positive) (e e' : Z) :
  snd (shl_align m e e') = Z.min e e' /\
  Zpos (fst (shl_align m e e')) = Zpos m * 2 ^ (e - Z.min e e').
Proof.
  unfold shl_align. destruct (e' - e) as [|k|k] eqn:Ek; cbn [fst snd].
  - replace (e - Z.min e e') with 0 by lia. lia.
  - replace (e - Z.min e e') with 0 by lia. lia.
  - rewrite iter_xO_mul. split; [lia|]. f_equal. f_equal. lia.
Qed.

Lemma round_magnitude (s : bool) (m : positive) (e : Z) (c : Z) :
  -1074 <= e <= 971 -> Zpos m * 2 ^ (e + 1074) < 2 ^ (c + 1074) -> c <= 1023 ->
  match binary_round 53 1024 s m e with
  | S754_infinity _ | S754_nan => False
  | x => in_range x
  end.
Proof.
  intros He Hm Hc. unfold binary_round.
  pose proof (shl_align_spec m e (fexp 53 1024 (Zpos (digits2_pos m) + e)))
    as [He' Hm'].
  destruct (shl_align m e _) as [mz ez]. cbn [fst snd] in He', Hm'.
  rewrite <- He' in Hm'. rewrite fexp_spec in He'.
  assert (Hez : -1074 <= ez <= e) by lia.
  assert (Hpos : 0 < 2 ^ (ez + 1074)) by (apply Z.pow_pos_nonneg; lia).
  assert (Hval : Zpos mz * 2 ^ (ez + 1074) = Zpos m * 2 ^ (e + 1074)).
  { rewrite Hm', <- Z.mul_assoc, <- Z.pow_add_r by lia. f_equal. f_equal. lia. }
  assert (Hcz : ez < c).
  { destruct (Z.le_gt_cases c ez) as [Hle|]; [|lia].
    assert (2 ^ (c + 1074) <= 2 ^ (ez + 1074)) by (apply Z.pow_le_mono_r; lia).
    assert (1 * 2 ^ (ez + 1074) <= Zpos mz * 2 ^ (ez + 1074))
      by (apply Z.mul_le_mono_nonneg_r; lia).
    lia. }
  assert (Hlt : Zpos mz < 2 ^ (c - ez)).
  { apply Z.mul_lt_mono_pos_r with (2 ^ (ez + 1074)); [exact Hpos|].
    rewrite <- Z.pow_add_r by lia. replace (c - ez + (ez + 1074)) with (c + 1074) by lia.
    lia. }
  pose proof (round_aux_magnitude s mz ez loc_Exact c Hlt ltac:(lia)) as H.
  pose proof (round_aux_sign s mz ez loc_Exact) as Hs.
  destruct (binary_round_aux 53 1024 s (Zpos mz) ez loc_Exact) as [s'|s'| |s' m2 e2].
  - exact I.
  - lia.
  - exact H.
  - subst s'. apply H.
Qed.

Lemma in_range_mul (x y : float) : in_range (F64.mul x y).
Proof.
  destruct x as [sx|sx| |sx mx ex], y as [sy|sy| |sy my ey]; try exact I.
  apply round_aux_in_range.
Qed.

Lemma in_range_round (s : bool) (m : positive) (e : Z) :
  in_range (binary_round 53 1024 s m e).
Proof. unfold binary_round. destruct (shl_align m e _). apply round_aux_in_range. Qed.

Lemma in_range_add (x y : float) :
  in_range x -> in_range y -> in_range (F64.add x y).
Proof.
  destruct x as [[]|[]| |sx mx ex], y as [[]|[]| |sy my ey]; intros Hx Hy;
    try exact I; try assumption.
  unfold F64.add, SFadd, binary_normalize.
  destruct (_ + _) as [|p|p]; [exact I| |]; apply in_range_round.
Qed.

(** A finite non-negative amount times a rate below one stays finite. *)
Lemma mul_rate_magnitude (x : float) (mr : positive) (er c : Z) :
  in_range x -> F64.is_finite x = true -> nonneg x = true ->
  er <= 0 -> digits mr + er <= c -> -2098 <= c <= -1 ->
  let y := F64.mul x (S754_finite false mr er) in
  F64.is_finite y = true /\ nonneg y = true /\ in_range y /\
  scaled y <= 2 ^ (1024 + c + 1074).
Proof.
  intros Hx Hfin Hnn Her Hc Hcb. cbv zeta.
  assert (Hbig : 0 < 2 ^ (1024 + c + 1074)) by (apply Z.pow_pos_nonneg; lia).
  destruct x as [sx|sx| |[] mx ex]; try discriminate.
  - cbn. repeat split; lia.
  - destruct Hx as [Hdx Hex]. unfold F64.mul, SFmul. cbn [xorb].
    pose proof (digits_bounds mx) as [_ Hmx]. pose proof (digits_bounds mr) as [_ Hmr].
    pose proof (digits_pos mx). pose proof (digits_pos mr).
    assert (Hlt : Zpos (mx * mr) < 2 ^ (digits mx + digits mr + (ex + er) - (ex + er))).
    { replace (digits mx + digits mr + (ex + er) - (ex + er))
        with (digits mx + digits mr) by lia.
      rewrite Pos2Z.inj_mul, Z.pow_add_r by lia. apply Z.mul_lt_mono_nonneg; lia. }
    pose proof (round_aux_magnitude false (mx * mr) (ex + er) loc_Exact
                  (digits mx + digits mr + (ex + er)) Hlt ltac:(lia)) as Hmag.
    pose proof (round_aux_sign false (mx * mr) (ex + er) loc_Exact) as Hs.
    destruct (binary_round_aux _ _ _ _ _ _) as [s'|s'| |s' m2 e2]; subst.
    + cbn. repeat split; lia.
    + lia.
    + contradiction.
    + destruct Hmag as [Hr Hv]. repeat split; try apply Hr.
      cbn [scaled]. apply Z.le_trans with (1 := Hv).
      apply Z.pow_le_mono_r; lia.
Qed.

(** The sum of two finite non-negative amounts below [2^1023] is finite. *)
Lemma add_magnitude (x y : float) :
  in_range x -> in_range y ->
  F64.is_finite x = true -> F64.is_finite y = true ->
  nonneg x = true -> nonneg y = true ->
  scaled x + scaled y < 2 ^ (1023 + 1074) ->
  F64.is_finite (F64.add x y) = true.
Proof.
  intros Hx Hy Hfx Hfy Hnx Hny Hs.
  destruct x as [[]|sx| |[] mx ex]; try discriminate;
    (destruct y as [[]|sy| |[] my ey]; try discriminate); try reflexivity.
  destruct Hx as [Hdx Hex], Hy as [Hdy Hey]. cbn [scaled] in Hs.
  unfold F64.add, SFadd, cond_Zopp.
  set (ez := Z.min ex ey).
  destruct (shl_align_spec mx ex ez) as [_ Va].
  destruct (shl_align_spec my ey ez) as [_ Vb].
  replace (Z.min ex ez) with ez in Va by (subst ez; lia).
  replace (Z.min ey ez) with ez in Vb by (subst ez; lia).
  rewrite <- Pos2Z.inj_add. unfold binary_normalize, F64.prec, F64.emax.
  set (p := (fst (shl_align mx ex ez) + fst (shl_align my ey ez))%positive).
  assert (Hp : Zpos p * 2 ^ (ez + 1074) < 2 ^ (1023 + 1074)).
  { subst p. rewrite Pos2Z.inj_add, Va, Vb, Z.mul_add_distr_r.
    rewrite <- !Z.mul_assoc, <- !Z.pow_add_r by (subst ez; lia).
    replace (ex - ez + (ez + 1074)) with (ex + 1074) by lia.
    replace (ey - ez + (ez + 1074)) with (ey + 1074) by lia. exact Hs. }
  pose proof (round_magnitude false p ez 1023 ltac:(subst ez; lia) Hp ltac:(lia)) as H.
  destruct (binary_round 53 1024 false p ez); try contradiction; reflexivity.
Qed.

Lemma amount_below_zero (c : Z) (s : bool) : -1074 <= c -> amount_below c (S754_zero s).
Proof.
  intros Hc. repeat split. cbn [scaled]. apply Z.pow_nonneg. lia.
Qed.

Lemma amount_below_le (c c' : Z) (x : float) :
  c <= c' -> -1074 <= c -> amount_below c x -> amount_below c' x.
Proof.
  intros Hle Hc (H1 & H2 & H3 & H4). repeat split; try assumption.
  apply Z.le_trans with (1 := H4). apply Z.pow_le_mono_r; lia.
Qed.

(** The rates 0.03 and 0.05 are below [2^-4], the rates 0.10 and 0.20 below
    [2^-2]. *)
Lemma amount_below_rate (x : float) (n k : Z) :
  in_range x -> F64.is_finite x = true -> nonneg x = true ->
  In (n, k) [(3, -4); (5, -4); (10, -2); (20, -2)] ->
  amount_below (1024 + k) (F64.mul x (F64.literal n 100)).
Proof.
  intros Hx Hf Hn Hin.
  assert (H : forall mr er, F64.literal n 100 = S754_finite false mr er ->
                er <= 0 -> digits mr + er <= k -> -4 <= k <= -1 ->
                amount_below (1024 + k) (F64.mul x (F64.literal n 100))).
  { intros mr er -> Her Hd Hk.
    destruct (mul_rate_magnitude x mr er k Hx Hf Hn Her Hd ltac:(lia))
      as (H1 & H2 & H3 & H4).
    repeat split; assumption. }
  cbn [In] in Hin.
  destruct Hin as [E|[E|[E|[E|[]]]]]; injection E as <- <-;
    (eapply H; [vm_compute; reflexivity|vm_compute; discriminate
               |vm_compute; discriminate|lia]).
Qed.

(** ** What a passed validation says about the items *)

Lemma validate_item_app (problems : list string) (it : LineItem) :
  validate_item problems it = problems ++ validate_item [] it.
Proof.
  unfold validate_item.
  destruct (String.eqb (sku it) ""), (qty it <=? 0),
    (F64.ltb (unit_price it) (F64.of_int 0)),
    (negb (str_in (category it) VALID_CATEGORIES));
    cbn [app]; rewrite <- ?app_assoc, ?app_nil_r; reflexivity.
Qed.

Lemma validate_items_app (l : list LineItem) (problems : list string) :
  fold_left validate_item l problems = problems ++ fold_left validate_item l [].
Proof.
  revert problems. induction l as [|it l IH]; intros problems; cbn [fold_left].
  - symmetry. apply app_nil_r.
  - rewrite IH, (IH (validate_item [] it)), validate_item_app, app_assoc. reflexivity.
Qed.

Lemma validate_item_ok (it : LineItem) :
  validate_item [] it = [] ->
  sku it <> "" /\ 0 < qty it /\ F64.ltb (unit_price it) (F64.of_int 0) = false /\
  str_in (category it) VALID_CATEGORIES = true.
Proof.
  unfold validate_item.
  destruct (String.eqb_spec (sku it) ""), (Z.leb_spec (qty it) 0),
    (F64.ltb (unit_price it) (F64.of_int 0)),
    (str_in (category it) VALID_CATEGORIES); cbn; intros Hnil;
    try discriminate Hnil.
  auto.
Qed.

Lemma validate_items_ok (l : list LineItem) :
  fold_left validate_item l [] = [] -> Forall (fun it => validate_item [] it = []) l.
Proof.
  induction l as [|it l IH]; intros H; [constructor|].
  cbn [fold_left] in H. rewrite validate_items_app in H.
  apply app_eq_nil in H. destruct H as [Hit Hl]. constructor; auto.
Qed.

Lemma validate_ok (inv : Invoice) :
  _validate (Some inv) = [] ->
  invoice_id inv <> "" /\ customer_id inv <> "" /\ items inv <> [] /\
  Forall (fun it => validate_item [] it = []) (items inv).
Proof.
  unfold _validate. rewrite validate_items_app. intros H.
  apply app_eq_nil in H. destruct H as [H1 H2]. revert H1.
  destruct (String.eqb_spec (invoice_id inv) ""),
    (String.eqb_spec (customer_id inv) ""), (items inv) as [|it l];
    cbn; intros H1; try discriminate H1.
  repeat split; try assumption; try discriminate.
  apply validate_items_ok, H2.
Qed.

(** ** The loop over the items *)

Lemma subtotal_loop_fits its :
  Forall (fun it => fits_float (qty it) = true) its ->
  forall acc self, exists r, subtotal_loop its acc self = (Return r, self).
Proof.
  induction 1 as [|it rest Hit _ IH]; intros acc self.
  - exists acc. reflexivity.
  - cbn [subtotal_loop]. rewrite bind_unfold.
    unfold subtotal_step. destruct acc as [s f].
    rewrite bind_unfold, float_mul_int_run.
    unfold fits_float in Hit.
    destruct (float_of_int (qty it)) as [q|e] eqn:Hq; [|discriminate].
    destruct (fragile it).
    + rewrite bind_unfold, float_mul_int_run, Hq. apply IH.
    + apply IH.
Qed.

Lemma valid_quantities_fit (l : list LineItem) :
  Forall (fun it => validate_item [] it = []) l ->
  Forall (fun it => qty it < float_int_bound) l ->
  Forall (fun it => fits_float (qty it) = true) l.
Proof.
  intros Hv Hb. rewrite Forall_forall in *. intros it Hin.
  destruct (validate_item_ok it (Hv it Hin)) as (_ & Hq & _).
  apply fits_float_iff; [lia|]. apply Hb, Hin.
Qed.

Lemma subtotal_loop_overflow (l : list LineItem) :
  Forall (fun it => validate_item [] it = []) l ->
  Exists (fun it => float_int_bound <= qty it) l ->
  forall acc self,
    subtotal_loop l acc self =
    (Raise (OverflowError "int too large to convert to float"), self).
Proof.
  induction 1 as [|it rest Hit Hrest IH]; intros Hex acc self.
  - inversion Hex.
  - destruct (validate_item_ok it Hit) as (_ & Hq & _).
    cbn [subtotal_loop]. rewrite bind_unfold, subtotal_step_run.
    destruct (float_of_int (qty it)) as [y|e] eqn:Hy.
    + apply IH. inversion Hex as [? ? Hhead|? ? Htail]; subst; [|exact Htail].
      assert (Hfit : fits_float (qty it) = true) by (unfold fits_float; rewrite Hy; reflexivity).
      apply fits_float_iff in Hfit; lia.
    + apply float_of_int_error in Hy. subst e. reflexivity.
Qed.

Lemma subtotal_loop_nonneg (l : list LineItem) :
  Forall (fun it => validate_item [] it = []) l ->
  forall s f self s' f' self',
    nonneg_or_nan s = true -> nonneg f = true ->
    subtotal_loop l (s, f) self = (Return (s', f'), self') ->
    nonneg_or_nan s' = true /\ nonneg f' = true.
Proof.
  induction 1 as [|it rest Hit _ IH]; intros s f self s' f' self' Hs Hf.
  - cbn. intros E. injection E as <- <- _. auto.
  - apply validate_item_ok in Hit. destruct Hit as (_ & Hq & Hp & _).
    cbn [subtotal_loop]. rewrite bind_unfold, subtotal_step_run. cbn [fst snd].
    destruct (float_of_int (qty it)) as [y|e] eqn:Hy; [|discriminate].
    destruct (float_of_int_positive _ _ Hq Hy) as [Hy1 Hy2].
    apply IH.
    + apply add_nonneg_or_nan; [exact Hs|].
      apply mul_nonneg; [apply price_not_negative, Hp|exact Hy1|exact Hy2].
    + destruct (fragile it); [|exact Hf].
      apply add_nonneg; [exact Hf|]. apply mul_nonneg_finite; auto.
Qed.

Lemma subtotal_loop_in_range (l : list LineItem) :
  forall s f self s' f' self',
    in_range s ->
    subtotal_loop l (s, f) self = (Return (s', f'), self') -> in_range s'.
Proof.
  induction l as [|it rest IH]; intros s f self s' f' self' Hs.
  - cbn. intros E. injection E as <- _ _. exact Hs.
  - cbn [subtotal_loop]. rewrite bind_unfold, subtotal_step_run. cbn [fst snd].
    destruct (float_of_int (qty it)) as [y|e]; [|discriminate].
    apply IH. apply in_range_add; [exact Hs|apply in_range_mul].
Qed.

Lemma exact_subtotal_nonneg whole l :
  Forall (fun it => unit_price it = F64.of_int (whole it) /\
                    0 <= whole it < 2 ^ 53 /\ 0 <= qty it < 2 ^ 53) l ->
  0 <= exact_subtotal whole l /\ 0 <= exact_fragile_fee l.
Proof.
  induction 1 as [|it rest (_ & Hw & Hq) _ [IH1 IH2]]; cbn; [lia|].
  destruct (fragile it); nia.
Qed.

Lemma subtotal_loop_exact whole l :
  Forall (fun it => unit_price it = F64.of_int (whole it) /\
                    0 <= whole it < 2 ^ 53 /\ 0 <= qty it < 2 ^ 53) l ->
  forall (a b : Z) (self : InvoiceService),
    0 <= a -> 0 <= b ->
    a + exact_subtotal whole l < 2 ^ 53 -> b + exact_fragile_fee l < 2 ^ 53 ->
    subtotal_loop l (F64.of_int a, F64.of_int b) self =
    (Return (F64.of_int (a + exact_subtotal whole l),
             F64.of_int (b + exact_fragile_fee l)), self).
Proof.
  induction 1 as [|it rest (Hp & Hw & Hq) Hrest IH]; intros a b self Ha Hb Hs Hf.
  - cbn. rewrite !Z.add_0_r. reflexivity.
  - pose proof (exact_subtotal_nonneg whole rest Hrest) as [Hs0 Hf0].
    cbn [subtotal_loop exact_subtotal exact_fragile_fee] in *.
    assert (Hfee : 0 <= (if fragile it then 5 * qty it else 0))
      by (destruct (fragile it); lia).
    rewrite bind_unfold, subtotal_step_run. cbn [fst snd].
    rewrite float_of_int_small by lia. rewrite Hp.
    assert (Hwq : 0 <= whole it * qty it) by nia.
    rewrite mul_of_int, add_of_int by lia.
    destruct (fragile it).
    + change f_5 with (F64.of_int 5).
      assert (H5 : 5 < 2 ^ 53) by reflexivity.
      rewrite mul_of_int, add_of_int by lia.
      rewrite IH by lia. rewrite !Z.add_assoc. reflexivity.
    + rewrite IH by lia. rewrite !Z.add_assoc, Z.add_0_r. reflexivity.
Qed.

Lemma calc_exact whole l self :
  exact_amounts whole l ->
  _calc_subtotal_and_fragile l self =
  (Return (F64.of_int (exact_subtotal whole l), F64.of_int (exact_fragile_fee l)),
   self).
Proof.
  intros (Hall & Hs & Hf). unfold _calc_subtotal_and_fragile.
  change F64.zero with (F64.of_int 0).
  rewrite (subtotal_loop_exact whole l Hall 0 0) by lia. reflexivity.
Qed.

Lemma exact_amounts_perm whole l l' :
  Permutation l l' ->
  exact_subtotal whole l = exact_subtotal whole l' /\
  exact_fragile_fee l = exact_fragile_fee l'.
Proof.
  induction 1 as [|x l l' _ [IH1 IH2]|x y l|l l' l'' _ [IH1 IH2] _ [IH3 IH4]]; cbn.
  - auto.
  - rewrite IH1, IH2. auto.
  - split; lia.
  - split; congruence.
Qed.

Lemma exact_fragile_fee_nonneg (l : list LineItem) :
  Forall (fun it => 0 <= qty it < float_int_bound) l -> 0 <= exact_fragile_fee l.
Proof.
  induction 1 as [|it rest Hq _ IH]; cbn; [lia|]. destruct (fragile it); lia.
Qed.

Lemma subtotal_loop_fee_exact (l : list LineItem) :
  Forall (fun it => 0 <= qty it < float_int_bound) l ->
  forall (s : float) (b : Z) (self : InvoiceService),
    0 <= b -> b + exact_fragile_fee l < 2 ^ 53 ->
    exists s',
      subtotal_loop l (s, F64.of_int b) self =
      (Return (s', F64.of_int (b + exact_fragile_fee l)), self).
Proof.
  induction 1 as [|it rest Hq Hrest IH]; intros s b self Hb Hf.
  - exists s. cbn. rewrite Z.add_0_r. reflexivity.
  - pose proof (exact_fragile_fee_nonneg rest Hrest) as Hf0.
    cbn [subtotal_loop exact_fragile_fee] in *.
    rewrite bind_unfold, subtotal_step_run. cbn [fst snd].
    assert (Hfit : fits_float (qty it) = true) by (apply fits_float_iff; lia).
    unfold fits_float in Hfit.
    destruct (float_of_int (qty it)) as [y|e] eqn:Hy; [|discriminate].
    destruct (fragile it).
    + assert (H5 : 5 < 2 ^ 53) by reflexivity.
      rewrite float_of_int_small in Hy by lia. injection Hy as <-.
      change f_5 with (F64.of_int 5).
      rewrite mul_of_int, add_of_int by lia.
      destruct (IH (F64.add s (F64.mul (unit_price it) (F64.of_int (qty it))))
                  (b + 5 * qty it) self ltac:(lia) ltac:(lia)) as [s' ->].
      exists s'. rewrite Z.add_assoc. reflexivity.
    + destruct (IH (F64.add s (F64.mul (unit_price it) y)) b self Hb ltac:(lia))
        as [s' ->].
      exists s'. rewrite Z.add_0_l. reflexivity.
Qed.

Lemma exact_fragile_fee_perm (l l' : list LineItem) :
  Permutation l l' -> exact_fragile_fee l = exact_fragile_fee l'.
Proof.
  induction 1 as [|x l l' _ IH|x y l|l l' l'' _ IH1 _ IH2]; cbn; lia.
Qed.

Lemma calc_fee_exact (l : list LineItem) (self : InvoiceService) :
  Forall (fun it => 0 <= qty it < float_int_bound) l ->
  exact_fragile_fee l < 2 ^ 53 ->
  fee_of (fst (_calc_subtotal_and_fragile l self)) =
  Return (F64.of_int (exact_fragile_fee l)).
Proof.
  intros Hq Hf. unfold _calc_subtotal_and_fragile.
  change (F64.zero, F64.zero) with (F64.zero, F64.of_int 0).
  destruct (subtotal_loop_fee_exact l Hq F64.zero 0 self ltac:(lia) ltac:(lia))
    as [s' ->].
  reflexivity.
Qed.

Lemma calc_swap_front (a b : LineItem) (rest : list LineItem) (self : InvoiceService) :
  _calc_subtotal_and_fragile (a :: b :: rest) self =
  _calc_subtotal_and_fragile (b :: a :: rest) self.
Proof.
  unfold _calc_subtotal_and_fragile. cbn [subtotal_loop].
  rewrite !bind_unfold, !subtotal_step_run. cbn [fst snd].
  destruct (float_of_int (qty a)) as [qa|ea] eqn:Ha,
           (float_of_int (qty b)) as [qb|eb] eqn:Hb;
    rewrite ?bind_unfold, ?subtotal_step_run, ?Ha, ?Hb; cbn [fst snd].
  - rewrite (add_zero_swap (F64.mul (unit_price a) qa)).
    destruct (fragile a), (fragile b); try reflexivity.
    rewrite (add_zero_swap (F64.mul f_5 qa)). reflexivity.
  - reflexivity.
  - reflexivity.
  - apply float_of_int_error in Ha, Hb. subst. reflexivity.
Qed.

(** ** The lookup tables *)

Lemma coupon_rate_lookup (code : string) :
  _coupon_rate __init__ !! code =
  if String.eqb code "WELCOME10" then Some (F64.literal 10 100)
  else if String.eqb code "VIP20" then Some (F64.literal 20 100)
  else if String.eqb code "STUDENT5" then Some (F64.literal 5 100)
  else None.
Proof.
  cbn [_coupon_rate __init__].
  destruct (String.eqb_spec code "WELCOME10") as [->|H1]; [reflexivity|].
  destruct (String.eqb_spec code "VIP20") as [->|H2]; [reflexivity|].
  destruct (String.eqb_spec code "STUDENT5") as [->|H3]; [reflexivity|].
  rewrite !lookup_insert_ne by congruence. apply lookup_empty.
Qed.

Lemma tax_rate_lookup (country : string) :
  default f_0_05 (_tax_rates __init__ !! country) =
  if String.eqb country "TH" then F64.literal 7 100
  else if String.eqb country "JP" then F64.literal 10 100
  else if String.eqb country "US" then F64.literal 8 100
  else F64.literal 5 100.
Proof.
  cbn [_tax_rates __init__].
  destruct (String.eqb_spec country "TH") as [->|H1]; [reflexivity|].
  destruct (String.eqb_spec country "JP") as [->|H2]; [reflexivity|].
  destruct (String.eqb_spec country "US") as [->|H3]; [reflexivity|].
  rewrite !lookup_insert_ne by congruence. rewrite lookup_empty. reflexivity.
Qed.

Lemma tax_rate_positive (country : string) :
  exists m e, default f_0_05 (_tax_rates __init__ !! country) = S754_finite false m e.
Proof.
  rewrite tax_rate_lookup.
  destruct (String.eqb country "TH"); [do 2 eexists; reflexivity|].
  destruct (String.eqb country "JP"); [do 2 eexists; reflexivity|].
  destruct (String.eqb country "US"); do 2 eexists; reflexivity.
Qed.

Lemma _coupon_discount_run subtotal coupon warnings :
  _coupon_discount subtotal coupon warnings __init__ =
  (Return
     match coupon with
     | None => (F64.zero, warnings)
     | Some c =>
         if String.eqb (strip c) "" then (F64.zero, warnings)
         else match _coupon_rate __init__ !! strip c with
              | None => (F64.zero, warnings ++ ["Unknown coupon"])
              | Some rate => (F64.mul subtotal rate, warnings)
              end
     end, __init__).
Proof.
  unfold _coupon_discount. destruct coupon as [c|]; [|reflexivity].
  destruct (String.eqb_spec c "") as [->|Hc]; [reflexivity|]. cbn [orb].
  destruct (String.eqb (strip c) ""); [reflexivity|].
  rewrite bind_unfold. unfold attr.
  destruct (_coupon_rate __init__ !! strip c); reflexivity.
Qed.

Lemma _coupon_discount_returns subtotal coupon warnings self :
  exists r, _coupon_discount subtotal coupon warnings self = (Return r, self).
Proof.
  unfold _coupon_discount. destruct coupon as [c|]; [|eexists; reflexivity].
  destruct (String.eqb c "" || String.eqb (strip c) ""); [eexists; reflexivity|].
  rewrite bind_unfold. unfold attr.
  destruct (_coupon_rate self !! strip c); eexists; reflexivity.
Qed.

Lemma coupon_warning subtotal coupon :
  snd (match fst (_coupon_discount subtotal coupon [] __init__) with
       | Return r => r
       | Raise _ => (F64.zero, [])
       end) = if coupon_unknown coupon then ["Unknown coupon"] else [].
Proof.
  rewrite _coupon_discount_run. cbn [fst]. unfold coupon_unknown.
  destruct coupon as [c|]; [|reflexivity].
  destruct (String.eqb (strip c) ""); [reflexivity|].
  destruct (_coupon_rate __init__ !! strip c); reflexivity.
Qed.

Lemma _calc_shipping_nonneg subtotal country :
  nonneg (_calc_shipping subtotal country) = true /\
  F64.is_finite (_calc_shipping subtotal country) = true.
Proof.
  unfold _calc_shipping.
  repeat match goal with |- context [if ?b then _ else _] => destruct b end;
    split; reflexivity.
Qed.

Lemma discount_finite (s : float) (membership : string) (coupon : option string)
    (cd : float) (w : list string) :
  in_range s -> F64.is_finite s = true -> nonneg s = true ->
  _coupon_discount s coupon [] __init__ = (Return (cd, w), __init__) ->
  F64.is_finite (F64.add (_membership_discount s membership) cd) = true.
Proof.
  intros Hr Hf Hn Hcd.
  assert (Hmd : amount_below 1020 (_membership_discount s membership)).
  { unfold _membership_discount.
    destruct (String.eqb membership "gold");
      [apply (amount_below_rate s 3 (-4)); cbn; auto|].
    destruct (String.eqb membership "platinum");
      [apply (amount_below_rate s 5 (-4)); cbn; auto|].
    destruct (F64.gtb s (F64.of_int 3000)); [|apply amount_below_zero; lia].
    repeat split; vm_compute; try lia; discriminate. }
  assert (Hc : amount_below 1022 cd).
  { rewrite _coupon_discount_run in Hcd. injection Hcd as Hcd.
    destruct coupon as [c|]; [|injection Hcd as <- _; apply amount_below_zero; lia].
    destruct (String.eqb (strip c) "");
      [injection Hcd as <- _; apply amount_below_zero; lia|].
    rewrite coupon_rate_lookup in Hcd.
    destruct (String.eqb (strip c) "WELCOME10");
      [injection Hcd as <- _; apply (amount_below_rate s 10 (-2)); cbn; auto|].
    destruct (String.eqb (strip c) "VIP20");
      [injection Hcd as <- _; apply (amount_below_rate s 20 (-2)); cbn; auto|].
    destruct (String.eqb (strip c) "STUDENT5");
      [injection Hcd as <- _;
       apply (amount_below_le 1020 1022); [lia|lia|];
       apply (amount_below_rate s 5 (-4)); cbn; auto|].
    injection Hcd as <- _. apply amount_below_zero. lia. }
  destruct Hmd as (M1 & M2 & M3 & M4), Hc as (C1 & C2 & C3 & C4).
  apply add_magnitude; try assumption.
  assert (Hpow : 2 ^ (1020 + 1074) + 2 ^ (1022 + 1074) < 2 ^ (1023 + 1074))
    by reflexivity.
  lia.
Qed.

(** ** Failing and successful calls *)

Lemma compute_total_invalid inv self :
  _validate inv <> [] ->
  compute_total inv self = (Raise (ValueError (join "; " (_validate inv))), self).
Proof.
  intros Hne. unfold compute_total, compute_total_body. rewrite bind_unfold.
  destruct (_validate inv) as [|p ps]; [congruence|reflexivity].
Qed.

Lemma compute_total_body_valid inv self :
  _validate (Some inv) = [] ->
  Forall (fun it => fits_float (qty it) = true) (items inv) ->
  exists l, compute_total_body (Some inv) self = (Return l, self).
Proof.
  intros Hv Hfit. unfold compute_total_body. rewrite Hv.
  rewrite bind_unfold. unfold _calc_subtotal_and_fragile.
  destruct (subtotal_loop_fits _ Hfit (F64.zero, F64.zero) self) as [[s f] ->].
  rewrite bind_unfold.
  destruct (_coupon_discount_returns s (coupon inv) [] self) as [[cd w] ->].
  rewrite bind_unfold, _tax_amount_run.
  eexists. reflexivity.
Qed.

Lemma compute_total_body_returns inv self :
  _validate (Some inv) = [] ->
  Forall (fun it => qty it < float_int_bound) (items inv) ->
  exists l, compute_total_body (Some inv) self = (Return l, self).
Proof.
  intros Hv Hb. destruct (validate_ok inv Hv) as (_ & _ & _ & Hitems).
  apply compute_total_body_valid; [exact Hv|].
  apply valid_quantities_fit; assumption.
Qed.

Lemma compute_total_overflow inv self :
  _validate (Some inv) = [] ->
  Exists (fun it => float_int_bound <= qty it) (items inv) ->
  compute_total (Some inv) self =
  (Raise (OverflowError "int too large to convert to float"), self).
Proof.
  intros Hv Hex. destruct (validate_ok inv Hv) as (_ & _ & _ & Hitems).
  unfold compute_total, compute_total_body. rewrite Hv, !bind_unfold.
  unfold _calc_subtotal_and_fragile.
  rewrite (subtotal_loop_overflow _ Hitems Hex). reflexivity.
Qed.

Lemma compute_total_body_inv inv self self' l :
  compute_total_body (Some inv) self = (Return l, self') ->
  exists subtotal fragile_fee cd warnings,
    _validate (Some inv) = [] /\
    _calc_subtotal_and_fragile (items inv) self = (Return (subtotal, fragile_fee), self) /\
    _coupon_discount subtotal (coupon inv) [] self = (Return (cd, warnings), self) /\
    let discount := F64.add (_membership_discount subtotal (membership inv)) cd in
    let taxable := py_max (F64.sub subtotal discount) F64.zero in
    let tax := F64.mul taxable (default f_0_05 (_tax_rates self !! country inv)) in
    let shipping := _calc_shipping subtotal (country inv) in
    l = {| l_subtotal := subtotal; l_fragile_fee := fragile_fee;
           l_shipping := shipping; l_discount := discount;
           l_taxable := taxable; l_tax := tax;
           l_total := total_formula subtotal shipping fragile_fee tax discount;
           l_warnings :=
             if F64.gtb subtotal (F64.of_int 10000)
                && negb (str_in (membership inv) ["gold"; "platinum"])
             then warnings ++ ["Consider membership upgrade"] else warnings |}.
Proof.
  unfold compute_total_body.
  destruct (_validate (Some inv)) as [|p ps]; [|discriminate].
  rewrite bind_unfold.
  pose proof (subtotal_loop_state (items inv) (F64.zero, F64.zero) self) as H1.
  unfold _calc_subtotal_and_fragile.
  destruct (subtotal_loop (items inv) (F64.zero, F64.zero) self)
    as [[[s f]|e] self1] eqn:E1; cbn in H1; subst self1; [|discriminate].
  rewrite bind_unfold.
  pose proof (_coupon_discount_state s (coupon inv) [] self) as H2.
  destruct (_coupon_discount s (coupon inv) [] self)
    as [[[cd w]|e] self2] eqn:E2; cbn in H2; subst self2; [|discriminate].
  rewrite bind_unfold, _tax_amount_run.
  intros H. injection H as <- _.
  exists s, f, cd, w. split; [reflexivity|]. split; [reflexivity|].
  split; [exact E2|]. reflexivity.
Qed.

Lemma compute_total_inv inv self self' total warnings :
  compute_total inv self = (Return (total, warnings), self') ->
  exists i l, inv = Some i /\ compute_total_body (Some i) self = (Return l, self) /\
              total = l_total l /\ warnings = l_warnings l.
Proof.
  unfold compute_total. rewrite bind_unfold.
  pose proof (compute_total_body_state inv self) as Hs.
  destruct (compute_total_body inv self) as [[l|e] self1] eqn:Hb;
    cbn in Hs; subst self1; [|discriminate].
  intros H. injection H as <- <- _.
  destruct inv as [i|].
  - exists i, l. auto.
  - unfold compute_total_body in Hb. discriminate.
Qed.

(** ** The stated properties *)

(** C1 (amended).  When validation finds at least one problem, [compute_total]
    raises [ValueError] whose message is the problems joined by ["; "] in the
    order of detection, and gives no total.  When validation finds no problem
    and every quantity is below [2^1024 - 2^970], [compute_total] returns a
    pair of a total and a list of warnings; when validation finds no problem
    and some quantity is not below that bound, it raises [OverflowError].  In
    every case the service object is left as it was. *)
Theorem compute_total_fails_iff_invalid (inv : option Invoice) (self : InvoiceService) :
  (_validate inv <> [] ->
   compute_total inv self = (Raise (ValueError (join "; " (_validate inv))), self)) /\
  (forall i, inv = Some i -> _validate inv = [] ->
   (Forall (fun it => qty it < float_int_bound) (items i) ->
    exists total warnings, compute_total inv self = (Return (total, warnings), self)) /\
   (Exists (fun it => float_int_bound <= qty it) (items i) ->
    compute_total inv self =
      (Raise (OverflowError "int too large to convert to float"), self))).
Proof.
  split.
  - apply compute_total_invalid.
  - intros i -> Hv. split.
    + intros Hb. destruct (compute_total_body_returns i self Hv Hb) as [l Hl].
      exists (l_total l), (l_warnings l).
      unfold compute_total. rewrite bind_unfold, Hl. reflexivity.
    + apply compute_total_overflow, Hv.
Qed.

(** The statement above at an invoice with three problems, at a valid one and
    at a valid one with the quantity [2^1024]. *)
Lemma compute_total_fails_iff_invalid_witness :
  compute_total (Some inv_empty) __init__ =
    (Raise (ValueError (join "; " (_validate (Some inv_empty)))), __init__) /\
  (exists total warnings,
     compute_total (Some inv_vip20) __init__ = (Return (total, warnings), __init__)) /\
  compute_total (Some inv_huge_qty) __init__ =
    (Raise (OverflowError "int too large to convert to float"), __init__).
Proof.
  split; [|split].
  - apply (proj1 (compute_total_fails_iff_invalid (Some inv_empty) __init__)).
    discriminate.
  - apply (proj2 (compute_total_fails_iff_invalid (Some inv_vip20) __init__)
             inv_vip20 eq_refl eq_refl).
    repeat constructor.
  - apply (proj2 (compute_total_fails_iff_invalid (Some inv_huge_qty) __init__)
             inv_huge_qty eq_refl eq_refl).
    left. cbn. unfold float_int_bound. lia.
Defined.

(** C1 as stated fails: an invoice that passes validation, with the quantity
    [2^1024], makes [compute_total] raise [OverflowError] in
    [unit_price * qty]. *)
Lemma valid_invoice_overflows :
  _validate (Some inv_huge_qty) = [] /\
  compute_total (Some inv_huge_qty) __init__ =
    (Raise (OverflowError "int too large to convert to float"), __init__).
Proof. split; vm_compute; reflexivity. Qed.

(** C2.  An invoice that passes validation, with one item that is not fragile
    and gives the subtotal 1000.0, coupon VIP20, membership standard and
    country US, has the total 864.0 and no warning; the membership discount
    is 0.0, the coupon discount 200.0, the taxable base 800.0, the tax 64.0,
    the shipping 0.0 and the fragile fee 0.0. *)
Theorem coupon_case_vip20 (inv : Invoice) (it : LineItem) (fee : float) :
  _validate (Some inv) = [] ->
  items inv = [it] ->
  fst (_calc_subtotal_and_fragile [it] __init__) = Return (F64.of_int 1000, fee) ->
  fragile it = false ->
  coupon inv = Some "VIP20" ->
  membership inv = "standard" ->
  country inv = "US" ->
  compute_total (Some inv) __init__ = (Return (F64.of_int 864, []), __init__) /\
  compute_total_body (Some inv) __init__ =
    (Return {| l_subtotal := F64.of_int 1000; l_fragile_fee := F64.zero;
               l_shipping := F64.zero; l_discount := F64.of_int 200;
               l_taxable := F64.of_int 800; l_tax := F64.of_int 64;
               l_total := F64.of_int 864; l_warnings := [] |}, __init__) /\
  _membership_discount (F64.of_int 1000) "standard" = F64.zero /\
  _coupon_discount (F64.of_int 1000) (Some "VIP20") [] __init__ =
    (Return (F64.of_int 200, []), __init__).
Proof.
  intros Hv Hit Hsub Hfr Hc Hm Hco.
  assert (Hbody : compute_total_body (Some inv) __init__ =
    (Return {| l_subtotal := F64.of_int 1000; l_fragile_fee := F64.zero;
               l_shipping := F64.zero; l_discount := F64.of_int 200;
               l_taxable := F64.of_int 800; l_tax := F64.of_int 64;
               l_total := F64.of_int 864; l_warnings := [] |}, __init__)).
  { unfold compute_total_body. rewrite Hv, Hit, Hc, Hm, Hco.
    rewrite bind_unfold. rewrite calc_single in Hsub |- *. rewrite Hfr in Hsub |- *.
    destruct (float_of_int (qty it)) as [q|e]; [|discriminate].
    cbn [fst] in Hsub.
    remember (F64.add F64.zero (F64.mul (unit_price it) q)) as s eqn:Es.
    injection Hsub as -> _.
    vm_compute. reflexivity. }
  split; [|split; [exact Hbody|split; vm_compute; reflexivity]].
  unfold compute_total. rewrite bind_unfold, Hbody. reflexivity.
Qed.

(** The statement above at the item of price 1000.0 and quantity 1. *)
Lemma coupon_case_vip20_witness :
  _validate (Some inv_vip20) = [] /\
  fst (_calc_subtotal_and_fragile [item_1000] __init__) =
    Return (F64.of_int 1000, F64.zero) /\
  compute_total (Some inv_vip20) __init__ = (Return (F64.of_int 864, []), __init__).
Proof.
  split; [reflexivity|split; [reflexivity|]].
  apply (coupon_case_vip20 inv_vip20 item_1000 F64.zero); reflexivity.
Defined.

(** C3 (amended).  An invoice that passes validation makes the call return
    as soon as every quantity is below [2^1024 - 2^970].  When the call
    returns, the tax is the taxable base times the rate of the country, the
    total and the taxable base are each greater than or equal to 0.0 unless
    they are NaN, and whenever the subtotal is finite both the total and the
    taxable base are greater than or equal to 0.0, whatever the discounts. *)
Theorem total_and_taxable_nonnegative (inv : Invoice) :
  _validate (Some inv) = [] ->
  (Forall (fun it => qty it < float_int_bound) (items inv) ->
   exists l, compute_total_body (Some inv) __init__ = (Return l, __init__)) /\
  (forall l self',
     compute_total_body (Some inv) __init__ = (Return l, self') ->
     compute_total (Some inv) __init__ = (Return (l_total l, l_warnings l), __init__) /\
     l_tax l =
       F64.mul (l_taxable l) (default f_0_05 (_tax_rates __init__ !! country inv)) /\
     F64.geb (l_total l) F64.zero = negb (F64.is_nan (l_total l)) /\
     F64.geb (l_taxable l) F64.zero = negb (F64.is_nan (l_taxable l)) /\
     (F64.is_finite (l_subtotal l) = true ->
      F64.geb (l_total l) F64.zero = true /\ F64.geb (l_taxable l) F64.zero = true)).
Proof.
  intros Hv. split; [apply compute_total_body_returns, Hv|].
  intros l self' Hb.
  assert (Hc : compute_total (Some inv) __init__ =
               (Return (l_total l, l_warnings l), __init__)).
  { unfold compute_total. rewrite bind_unfold.
    pose proof (compute_total_body_state (Some inv) __init__) as Hs.
    rewrite Hb in Hs |- *. cbn in Hs. subst self'. reflexivity. }
  destruct (compute_total_body_inv _ _ _ _ Hb)
    as (s & f & cd & w & _ & Hcalc & Hcd & ->).
  cbn [l_total l_taxable l_tax l_warnings l_subtotal l_discount] in *.
  unfold total_formula.
  rewrite !py_max_zero_nan, !py_max_zero_geb.
  do 4 (split; [solve [auto]|]).
  set (d := F64.add (_membership_discount s (membership inv)) cd).
  intros Hs.
  destruct (validate_ok inv Hv) as (_ & _ & _ & Hitems).
  destruct (subtotal_loop_nonneg _ Hitems F64.zero F64.zero __init__ s f __init__
              eq_refl eq_refl Hcalc) as [Hs' Hf].
  apply (finite_nonneg_or_nan s Hs) in Hs'.
  pose proof (subtotal_loop_in_range _ F64.zero F64.zero __init__ s f __init__
                I Hcalc) as Hrange.
  assert (Hd : F64.is_finite d = true)
    by (apply (discount_finite s (membership inv) (coupon inv) cd w); assumption).
  assert (Ht : F64.is_nan (F64.sub s d) = false) by (apply sub_finite_not_nan; auto).
  rewrite Ht. split; [|reflexivity].
  destruct (tax_rate_positive (country inv)) as (m & e & ->).
  rewrite sub_nonneg_finite_not_nan; [reflexivity| |exact Hd].
  repeat apply add_nonneg; try assumption.
  - apply _calc_shipping_nonneg.
  - apply mul_nonneg_positive, py_max_zero_nonneg, Ht.
Qed.

(** The statement above at the invoice of the coupon case. *)
Lemma total_and_taxable_nonnegative_witness :
  _validate (Some inv_vip20) = [] /\
  F64.geb (F64.of_int 864) F64.zero = true /\
  F64.geb (F64.of_int 800) F64.zero = true.
Proof.
  split; [reflexivity|].
  refine (proj2 (proj2 (proj2 (proj2
    (proj2 (total_and_taxable_nonnegative inv_vip20 eq_refl)
       {| l_subtotal := F64.of_int 1000; l_fragile_fee := F64.zero;
          l_shipping := F64.zero; l_discount := F64.of_int 200;
          l_taxable := F64.of_int 800; l_tax := F64.of_int 64;
          l_total := F64.of_int 864; l_warnings := [] |} __init__ eq_refl)))) _);
    reflexivity.
Defined.

(** C3 as stated fails: with the unit price 1e308, the quantity 10 and gold
    membership the invoice passes validation, the subtotal and the discount
    overflow to infinity, and the taxable base and the total are NaN, which is
    not greater than or equal to 0.0. *)
Lemma overflowed_total_is_nan :
  _validate (Some inv_price_overflow) = [] /\
  F64.well_formed (unit_price item_price_overflow) = true /\
  compute_total_body (Some inv_price_overflow) __init__ =
    (Return {| l_subtotal := S754_infinity false; l_fragile_fee := F64.zero;
               l_shipping := F64.zero; l_discount := S754_infinity false;
               l_taxable := S754_nan; l_tax := S754_nan;
               l_total := S754_nan; l_warnings := [] |}, __init__) /\
  compute_total (Some inv_price_overflow) __init__ =
    (Return (S754_nan, []), __init__) /\
  F64.geb S754_nan F64.zero = false.
Proof.
  split; [reflexivity|split; [reflexivity|]].
  split; [vm_compute; reflexivity|]. split; [vm_compute; reflexivity|reflexivity].
Qed.

(** C4.  The shipping fee is a function of the subtotal and the country
    alone, with strict thresholds.  US: below 100 gives 15.0, else below 300
    gives 8.0, else 0.0.  TH: below 500 gives 60.0, else 0.0.  JP: below 4000
    gives 600.0, else 0.0.  Any other country: below 200 gives 25.0, else 0.0.
    For US, exactly 100.0 gives 8.0 and exactly 300.0 gives 0.0. *)
Theorem shipping_tiers (subtotal : float) (country : string) :
  (country = "US" ->
     (F64.ltb subtotal (F64.of_int 100) = true ->
        _calc_shipping subtotal country = F64.of_int 15) /\
     (F64.ltb subtotal (F64.of_int 100) = false ->
      F64.ltb subtotal (F64.of_int 300) = true ->
        _calc_shipping subtotal country = F64.of_int 8) /\
     (F64.ltb subtotal (F64.of_int 300) = false ->
        _calc_shipping subtotal country = F64.zero)) /\
  (country = "TH" ->
     _calc_shipping subtotal country =
       if F64.ltb subtotal (F64.of_int 500) then F64.of_int 60 else F64.zero) /\
  (country = "JP" ->
     _calc_shipping subtotal country =
       if F64.ltb subtotal (F64.of_int 4000) then F64.of_int 600 else F64.zero) /\
  (country <> "US" -> country <> "TH" -> country <> "JP" ->
     _calc_shipping subtotal country =
       if F64.ltb subtotal (F64.of_int 200) then F64.of_int 25 else F64.zero) /\
  _calc_shipping (F64.of_int 100) "US" = F64.of_int 8 /\
  _calc_shipping (F64.of_int 300) "US" = F64.zero.
Proof.
  split; [|split; [|split; [|split; [|split]]]]; try reflexivity.
  - intros ->. unfold _calc_shipping. cbn [String.eqb Ascii.eqb Bool.eqb].
    split; [|split].
    + intros H. rewrite H. reflexivity.
    + intros H1 H2. rewrite H1, H2. reflexivity.
    + intros H. rewrite H.
      destruct (F64.ltb subtotal (F64.of_int 100)) eqn:H1; [|reflexivity].
      apply ltb_100_300 in H1. congruence.
  - intros ->. reflexivity.
  - intros ->. reflexivity.
  - intros H1 H2 H3. unfold _calc_shipping.
    destruct (String.eqb_spec country "US"); [contradiction|].
    destruct (String.eqb_spec country "TH"); [contradiction|].
    destruct (String.eqb_spec country "JP"); [contradiction|].
    reflexivity.
Qed.

(** The statement above at one subtotal of each tier. *)
Lemma shipping_tiers_witness :
  _calc_shipping (F64.of_int 99) "US" = F64.of_int 15 /\
  _calc_shipping (F64.of_int 299) "US" = F64.of_int 8 /\
  _calc_shipping (F64.of_int 300) "US" = F64.zero /\
  _calc_shipping (F64.of_int 499) "TH" = F64.of_int 60 /\
  _calc_shipping (F64.of_int 4000) "JP" = F64.zero /\
  _calc_shipping (F64.of_int 199) "DE" = F64.of_int 25.
Proof.
  split; [apply (shipping_tiers (F64.of_int 99) "US"); reflexivity|].
  split; [apply (shipping_tiers (F64.of_int 299) "US"); reflexivity|].
  split; [apply (shipping_tiers (F64.of_int 300) "US"); reflexivity|].
  split; [apply (proj1 (proj2 (shipping_tiers (F64.of_int 499) "TH"))); reflexivity|].
  split; [apply (proj1 (proj2 (proj2 (shipping_tiers (F64.of_int 4000) "JP"))));
          reflexivity|].
  apply (proj1 (proj2 (proj2 (proj2 (shipping_tiers (F64.of_int 199) "DE")))));
    discriminate.
Defined.

(** C5.  The membership discount is the subtotal times 0.03 for gold, times
    0.05 for platinum, and for any other membership 20.0 when the subtotal is
    strictly greater than 3000 and 0.0 otherwise. *)
Theorem membership_discount_cases (subtotal : float) (membership : string) :
  (membership = "gold" ->
     _membership_discount subtotal membership = F64.mul subtotal (F64.literal 3 100)) /\
  (membership = "platinum" ->
     _membership_discount subtotal membership = F64.mul subtotal (F64.literal 5 100)) /\
  (membership <> "gold" -> membership <> "platinum" ->
     _membership_discount subtotal membership =
       if F64.gtb subtotal (F64.of_int 3000) then F64.of_int 20 else F64.zero).
Proof.
  split; [|split].
  - intros ->. reflexivity.
  - intros ->. reflexivity.
  - intros H1 H2. unfold _membership_discount.
    destruct (String.eqb_spec membership "gold"); [contradiction|].
    destruct (String.eqb_spec membership "platinum"); [contradiction|].
    reflexivity.
Qed.

(** The statement above at gold, platinum and standard memberships. *)
Lemma membership_discount_cases_witness :
  _membership_discount (F64.of_int 1000) "gold" = F64.of_int 30 /\
  _membership_discount (F64.of_int 1000) "platinum" = F64.of_int 50 /\
  _membership_discount (F64.of_int 3001) "standard" = F64.of_int 20 /\
  _membership_discount (F64.of_int 3000) "standard" = F64.zero.
Proof.
  split; [exact (proj1 (membership_discount_cases (F64.of_int 1000) "gold") eq_refl)|].
  split; [exact (proj1 (proj2 (membership_discount_cases (F64.of_int 1000) "platinum"))
                   eq_refl)|].
  split.
  - refine (proj2 (proj2 (membership_discount_cases (F64.of_int 3001) "standard")) _ _);
      discriminate.
  - refine (proj2 (proj2 (membership_discount_cases (F64.of_int 3000) "standard")) _ _);
      discriminate.
Defined.

(** C6.  An absent coupon, or one that is empty once trimmed, gives the
    discount 0.0 and leaves the warnings as they are.  A coupon whose trimmed
    code is WELCOME10, VIP20 or STUDENT5 gives the subtotal times 0.10, 0.20
    or 0.05 and leaves the warnings as they are.  Any other coupon gives 0.0
    and appends exactly the warning ["Unknown coupon"]. *)
Theorem coupon_discount_cases
    (subtotal : float) (coupon : option string) (warnings : list string) :
  (coupon = None \/ (exists c, coupon = Some c /\ strip c = "") ->
     _coupon_discount subtotal coupon warnings __init__ =
       (Return (F64.zero, warnings), __init__)) /\
  (forall c n, coupon = Some c ->
     In (strip c, n) [("WELCOME10", 10); ("VIP20", 20); ("STUDENT5", 5)] ->
     _coupon_discount subtotal coupon warnings __init__ =
       (Return (F64.mul subtotal (F64.literal n 100), warnings), __init__)) /\
  (forall c, coupon = Some c -> strip c <> "" ->
     ~ In (strip c) ["WELCOME10"; "VIP20"; "STUDENT5"] ->
     _coupon_discount subtotal coupon warnings __init__ =
       (Return (F64.zero, warnings ++ ["Unknown coupon"]), __init__)).
Proof.
  split; [|split].
  - intros [->|(c & -> & Hc)]; rewrite _coupon_discount_run; [reflexivity|].
    rewrite Hc. reflexivity.
  - intros c n -> Hin. rewrite _coupon_discount_run.
    cbn [In] in Hin.
    destruct Hin as [H|[H|[H|[]]]]; injection H as Hs <-; rewrite <- Hs; reflexivity.
  - intros c -> Hne Hnin. rewrite _coupon_discount_run, coupon_rate_lookup.
    cbn [In] in Hnin.
    destruct (String.eqb_spec (strip c) ""); [contradiction|].
    destruct (String.eqb_spec (strip c) "WELCOME10"); [intuition congruence|].
    destruct (String.eqb_spec (strip c) "VIP20"); [intuition congruence|].
    destruct (String.eqb_spec (strip c) "STUDENT5"); [intuition congruence|].
    reflexivity.
Qed.

(** The statement above at a blank coupon, a padded WELCOME10 and BOGUS50. *)
Lemma coupon_discount_cases_witness :
  _coupon_discount (F64.of_int 1000) (Some "   ") ["w"] __init__ =
    (Return (F64.zero, ["w"]), __init__) /\
  _coupon_discount (F64.of_int 1000) (Some " WELCOME10 ") ["w"] __init__ =
    (Return (F64.of_int 100, ["w"]), __init__) /\
  _coupon_discount (F64.of_int 1000) (Some "BOGUS50") ["w"] __init__ =
    (Return (F64.zero, ["w"; "Unknown coupon"]), __init__).
Proof.
  split; [|split].
  - apply (proj1 (coupon_discount_cases (F64.of_int 1000) (Some "   ") ["w"])).
    right. exists "   ". split; reflexivity.
  - apply (proj1 (proj2 (coupon_discount_cases (F64.of_int 1000) (Some " WELCOME10 ")
                           ["w"])) " WELCOME10 " 10 eq_refl).
    left. reflexivity.
  - apply (proj2 (proj2 (coupon_discount_cases (F64.of_int 1000) (Some "BOGUS50")
                           ["w"])) "BOGUS50" eq_refl).
    + discriminate.
    + cbn. intros [H|[H|[H|[]]]]; discriminate.
Defined.

(** C7.  For an invoice that passes validation, the call returns as soon as
    every quantity is below [2^1024 - 2^970], and the warnings of a returning
    call are exactly ["Unknown coupon"], present iff the coupon is not blank
    and its trimmed code has no rate, followed by
    ["Consider membership upgrade"], present iff the subtotal is strictly
    greater than 10000 and the membership is neither gold nor platinum.  The
    total is assembled from the subtotal, the shipping, the fragile fee, the
    tax and the discount only, whether or not the upgrade warning is there. *)
Theorem warnings_order (inv : Invoice) :
  _validate (Some inv) = [] ->
  (Forall (fun it => qty it < float_int_bound) (items inv) ->
     exists total warnings,
       compute_total (Some inv) __init__ = (Return (total, warnings), __init__)) /\
  (forall total warnings self',
     compute_total (Some inv) __init__ = (Return (total, warnings), self') ->
     exists l,
       compute_total_body (Some inv) __init__ = (Return l, __init__) /\
       total = l_total l /\
       warnings =
         (if coupon_unknown (coupon inv) then ["Unknown coupon"] else []) ++
         (if upgrade_suggested (l_subtotal l) (membership inv)
          then ["Consider membership upgrade"] else []) /\
       total =
         total_formula (l_subtotal l) (l_shipping l) (l_fragile_fee l) (l_tax l)
                       (l_discount l)).
Proof.
  intros Hv. split.
  - intros Hb. destruct (compute_total_body_returns inv __init__ Hv Hb) as [l Hl].
    exists (l_total l), (l_warnings l).
    unfold compute_total. rewrite bind_unfold, Hl. reflexivity.
  - intros total warnings self' Hc.
    destruct (compute_total_inv _ _ _ _ _ Hc) as (i & l & Hi & Hb & -> & ->).
    injection Hi as <-. exists l. split; [exact Hb|]. split; [reflexivity|].
    destruct (compute_total_body_inv _ _ _ _ Hb)
      as (s & f & cd & w & _ & _ & Hcd & ->).
    cbn [l_total l_warnings l_subtotal l_shipping l_fragile_fee l_tax l_discount].
    split; [|reflexivity].
    pose proof (coupon_warning s (coupon inv)) as Hw. rewrite Hcd in Hw.
    cbn [fst snd] in Hw. subst w.
    unfold upgrade_suggested, str_in. cbn [existsb].
    rewrite orb_false_r, negb_orb, andb_assoc.
    destruct (_ && _ && _); [reflexivity|]. symmetry. apply app_nil_r.
Qed.

(** The statement above at an invoice that gets both warnings. *)
Lemma warnings_order_witness :
  _validate (Some inv_both_warnings) = [] /\
  exists total,
    compute_total (Some inv_both_warnings) __init__ =
      (Return (total, ["Unknown coupon"; "Consider membership upgrade"]), __init__).
Proof.
  split; [reflexivity|].
  destruct (warnings_order inv_both_warnings eq_refl) as [Hret Hshape].
  destruct Hret as (total & warnings & Hc); [repeat constructor|].
  exists total. rewrite Hc.
  destruct (Hshape total warnings __init__ Hc) as (l & Hb & _ & -> & _).
  injection Hb as <-. reflexivity.
Defined.

(** C8.  An invoice with an empty [invoice_id], an empty [customer_id] and
    no items fails with a message that contains ["Missing invoice_id"],
    ["Missing customer_id"] and ["Invoice must contain items"], in that
    order: no check is skipped after an earlier one has failed. *)
Theorem validation_reports_all_missing (inv : Invoice) (self : InvoiceService) :
  invoice_id inv = "" -> customer_id inv = "" -> items inv = [] ->
  exists msg,
    compute_total (Some inv) self = (Raise (ValueError msg), self) /\
    msg = "Missing invoice_id; Missing customer_id; Invoice must contain items" /\
    occur_in_order
      ["Missing invoice_id"; "Missing customer_id"; "Invoice must contain items"] msg.
Proof.
  intros Hi Hc Hit. eexists. split; [|split; [reflexivity|]].
  - rewrite compute_total_invalid; unfold _validate; rewrite Hi, Hc, Hit; cbn.
    + reflexivity.
    + discriminate.
  - exists "", "; Missing customer_id; Invoice must contain items".
    split; [reflexivity|].
    exists "; ", "; Invoice must contain items". split; [reflexivity|].
    exists "; ", "". split; [reflexivity|exact I].
Qed.

(** The statement above at an invoice with the three fields empty. *)
Lemma validation_reports_all_missing_witness :
  exists msg,
    compute_total (Some inv_empty) __init__ = (Raise (ValueError msg), __init__) /\
    msg = "Missing invoice_id; Missing customer_id; Invoice must contain items" /\
    occur_in_order
      ["Missing invoice_id"; "Missing customer_id"; "Invoice must contain items"] msg.
Proof. apply (validation_reports_all_missing inv_empty __init__); reflexivity. Defined.

(** C9 (amended).  The subtotal and the fragile fee of a list of items and of
    a permutation of it are equal when the list has at most two items, and
    when no float operation rounds: every unit price is a whole number, every
    quantity is non-negative, and the exact subtotal and the exact fragile
    fee are below [2^53].  The fragile fee alone is the same in every order
    as soon as the quantities are non-negative, convert to a float, and give
    an exact fee below [2^53], whatever the prices. *)
Theorem subtotal_and_fragile_order
    (l l' : list LineItem) (self : InvoiceService) :
  Permutation l l' ->
  ((length l <= 2)%nat \/ (exists whole, exact_amounts whole l) ->
   _calc_subtotal_and_fragile l self = _calc_subtotal_and_fragile l' self) /\
  (Forall (fun it => 0 <= qty it < float_int_bound) l ->
   exact_fragile_fee l < 2 ^ 53 ->
   fee_of (fst (_calc_subtotal_and_fragile l self)) =
   fee_of (fst (_calc_subtotal_and_fragile l' self))).
Proof.
  intros Hp. split.
  - intros [Hlen|(whole & Hex)].
    + destruct l as [|a [|b [|c rest]]]; cbn in Hlen; try lia.
      * apply Permutation_nil in Hp. subst. reflexivity.
      * apply Permutation_length_1_inv in Hp. subst. reflexivity.
      * apply Permutation_length_2_inv in Hp. destruct Hp as [->| ->].
        -- reflexivity.
        -- apply calc_swap_front.
    + destruct (exact_amounts_perm whole l l' Hp) as [E1 E2].
      assert (Hex' : exact_amounts whole l').
      { destruct Hex as (Hall & Hs & Hf). unfold exact_amounts.
        rewrite <- E1, <- E2. repeat split; try assumption.
        exact (Permutation_Forall Hp Hall). }
      rewrite (calc_exact whole l self Hex), (calc_exact whole l' self Hex').
      rewrite E1, E2. reflexivity.
  - intros Hq Hf.
    pose proof (exact_fragile_fee_perm l l' Hp) as E.
    rewrite (calc_fee_exact l self Hq Hf).
    rewrite (calc_fee_exact l' self (Permutation_Forall Hp Hq)) by (rewrite <- E; exact Hf).
    rewrite E. reflexivity.
Qed.

(** The statement above at a list of two items, at a list of three items
    with whole prices, and for the fee at the prices 0.1, 0.2 and 0.3. *)
Lemma subtotal_and_fragile_order_witness :
  _calc_subtotal_and_fragile [item_priced 1 10; item_priced 2 10] __init__ =
    _calc_subtotal_and_fragile [item_priced 2 10; item_priced 1 10] __init__ /\
  _calc_subtotal_and_fragile items_whole __init__ =
    _calc_subtotal_and_fragile items_whole_rotated __init__ /\
  fee_of (fst (_calc_subtotal_and_fragile items_ascending __init__)) =
    fee_of (fst (_calc_subtotal_and_fragile items_descending __init__)).
Proof.
  split; [|split].
  - apply (subtotal_and_fragile_order _ _ __init__ (perm_swap _ _ [])).
    left. cbn. lia.
  - apply (subtotal_and_fragile_order items_whole items_whole_rotated __init__).
    + apply Permutation_cons_append with (l := [item_ten 2 false; item_ten 3 true]).
    + right. exists (fun _ => 10). split; [|split; reflexivity].
      repeat constructor; cbn; lia.
  - apply (subtotal_and_fragile_order items_ascending items_descending __init__).
    + apply Permutation_rev with (l := items_ascending).
    + unfold float_int_bound. repeat constructor; cbn; lia.
    + reflexivity.
Defined.

(** C9 as stated fails: the prices 0.1, 0.2 and 0.3, each with the quantity 1,
    give the subtotal 0.6000000000000001 in this order and 0.6 in the
    reverse order. *)
Lemma subtotal_depends_on_order :
  Permutation items_ascending items_descending /\
  Forall (fun it => F64.well_formed (unit_price it) = true) items_ascending /\
  _calc_subtotal_and_fragile items_ascending __init__ =
    (Return (S754_finite false 5404319552844596 (-53), F64.of_int 15), __init__) /\
  _calc_subtotal_and_fragile items_descending __init__ =
    (Return (S754_finite false 5404319552844595 (-53), F64.of_int 15), __init__) /\
  F64.literal 6 10 = S754_finite false 5404319552844595 (-53).
Proof.
  split; [|split; [|split; [|split]]].
  - apply Permutation_rev with (l := items_ascending).
  - repeat constructor.
  - vm_compute. reflexivity.
  - vm_compute. reflexivity.
  - reflexivity.
Qed.

(** C10.  Two calls of [compute_total] in a row on the same invoice, from any
    state of the service object, give the same outcome, and both leave the
    service object as it was. *)
Theorem compute_total_deterministic (inv : option Invoice) (self : InvoiceService) :
  let '(first, self1) := compute_total inv self in
  let '(second, self2) := compute_total inv self1 in
  first = second /\ self1 = self /\ self2 = self.
Proof.
  pose proof (compute_total_state inv self) as H1.
  destruct (compute_total inv self) as [first self1] eqn:E1. cbn in H1. subst self1.
  rewrite E1. auto.
Qed.

(** ** The worked cases of the specification *)

Example unknown_coupon_case :
  compute_total (Some inv_bogus50) __init__ =
    (Return (F64.of_int 1080, ["Unknown coupon"]), __init__).
Proof. vm_compute. reflexivity. Qed.

Example upgrade_warning_standard :
  exists total,
    compute_total (Some inv_both_warnings) __init__ =
      (Return (total, ["Unknown coupon"; "Consider membership upgrade"]), __init__).
Proof. eexists. vm_compute. reflexivity. Qed.

Example upgrade_warning_gold :
  exists total,
    compute_total (Some inv_gold_12000) __init__ = (Return (total, []), __init__).
Proof. eexists. vm_compute. reflexivity. Qed.

Example fragile_fee_case :
  _calc_subtotal_and_fragile [item_ten 3 true] __init__ =
    (Return (F64.of_int 30, F64.of_int 15), __init__).
Proof. vm_compute. reflexivity. Qed.

Example float_of_int_largest :
  float_of_int (2 ^ 1024 - 2 ^ 970 - 1) =
    Return (S754_finite false (2 ^ 53 - 1) 971) /\
  fits_float (2 ^ 1024 - 2 ^ 970) = false.
Proof. split; vm_compute; reflexivity. Qed.

(** * Further properties of the methods *)

(** ** The report of the validation *)

Lemma validate_item_valid (it : LineItem) :
  item_valid it -> validate_item [] it = [].
Proof.
  intros (H1 & H2 & H3 & H4). unfold validate_item.
  destruct (String.eqb_spec (sku it) ""); [contradiction|].
  destruct (Z.leb_spec (qty it) 0); [lia|].
  rewrite H3, H4. reflexivity.
Qed.

Lemma validate_items_valid (l : list LineItem) :
  Forall item_valid l -> fold_left validate_item l [] = [].
Proof.
  induction 1 as [|it l Hit _ IH]; [reflexivity|].
  cbn [fold_left]. rewrite (validate_item_valid it Hit). exact IH.
Qed.

Lemma validate_items_flat (l : list LineItem) (problems : list string) :
  fold_left validate_item l problems = problems ++ flat_map (validate_item []) l.
Proof.
  revert problems. induction l as [|it l IH]; intros problems; cbn [fold_left flat_map].
  - symmetry. apply app_nil_r.
  - rewrite IH, validate_item_app, app_assoc. reflexivity.
Qed.

Lemma validate_item_length (it : LineItem) : (length (validate_item [] it) <= 4)%nat.
Proof.
  unfold validate_item.
  destruct (String.eqb (sku it) ""), (qty it <=? 0),
    (F64.ltb (unit_price it) (F64.of_int 0)),
    (negb (str_in (category it) VALID_CATEGORIES)); cbn; lia.
Qed.

Lemma flat_validate_length (l : list LineItem) :
  (length (flat_map (validate_item []) l) <= 4 * length l)%nat.
Proof.
  induction l as [|it l IH]; [cbn; lia|].
  cbn [flat_map]. rewrite length_app. cbn [length].
  pose proof (validate_item_length it). lia.
Qed.

(** X1.  [_validate] finds no problem exactly when the invoice id and the
    customer id are not empty, there is at least one item, and every item
    has a non-empty sku, a positive quantity, a unit price that is not below
    zero and a category among the valid ones. *)
Theorem validate_passes_iff (inv : Invoice) :
  _validate (Some inv) = [] <->
  invoice_id inv <> "" /\ customer_id inv <> "" /\ items inv <> [] /\
  Forall item_valid (items inv).
Proof.
  split.
  - intros H. destruct (validate_ok inv H) as (H1 & H2 & H3 & H4).
    repeat (split; [assumption|]).
    clear H3. revert H4. generalize (items inv) as l.
    induction 1 as [|it l Hit _ IH]; constructor;
      [apply validate_item_ok, Hit|exact IH].
  - intros (H1 & H2 & H3 & H4). unfold _validate.
    destruct (String.eqb_spec (invoice_id inv) ""); [contradiction|].
    destruct (String.eqb_spec (customer_id inv) ""); [contradiction|].
    destruct (items inv) as [|it l] eqn:E; [contradiction|].
    apply validate_items_valid, H4.
Qed.

(** X2.  The report of [_validate] on a present invoice is the problems of
    the invoice itself followed by the problems of each item, item after
    item in the order of the items: no check stops another.  An item adds at
    most four problems, so the report has at most [3 + 4 * n] entries for [n]
    items. *)
Theorem validate_report_structure (inv : Invoice) :
  _validate (Some inv) =
    header_problems inv ++ flat_map (validate_item []) (items inv) /\
  (length (_validate (Some inv)) <= 3 + 4 * length (items inv))%nat.
Proof.
  assert (H : _validate (Some inv) =
              header_problems inv ++ flat_map (validate_item []) (items inv)).
  { unfold _validate, header_problems. rewrite validate_items_flat.
    f_equal.
    destruct (String.eqb (invoice_id inv) ""), (String.eqb (customer_id inv) ""),
      (items inv); reflexivity. }
  split; [exact H|].
  rewrite H, length_app. pose proof (flat_validate_length (items inv)) as Hl.
  assert (Hh : (length (header_problems inv) <= 3)%nat).
  { unfold header_problems.
    destruct (String.eqb (invoice_id inv) ""), (String.eqb (customer_id inv) ""),
      (items inv); cbn; lia. }
  lia.
Qed.

(** ** The errors of [compute_total] *)

Lemma subtotal_loop_raises (l : list LineItem) :
  forall acc self e self',
    subtotal_loop l acc self = (Raise e, self') ->
    e = OverflowError "int too large to convert to float" /\
    Exists (fun it => fits_float (qty it) = false) l.
Proof.
  induction l as [|it l IH]; intros acc self e self' H; [discriminate H|].
  cbn [subtotal_loop] in H. rewrite bind_unfold, subtotal_step_run in H.
  destruct (float_of_int (qty it)) as [q|e0] eqn:Hq.
  - destruct (IH _ _ _ _ H) as [He Hex]. split; [exact He|].
    apply Exists_cons_tl, Hex.
  - injection H as <- _. split; [apply (float_of_int_error _ _ Hq)|].
    apply Exists_cons_hd. unfold fits_float. rewrite Hq. reflexivity.
Qed.

Lemma subtotal_loop_returns_fits (l : list LineItem) :
  forall acc self r self',
    subtotal_loop l acc self = (Return r, self') ->
    Forall (fun it => fits_float (qty it) = true) l.
Proof.
  induction l as [|it l IH]; intros acc self r self' H; [constructor|].
  cbn [subtotal_loop] in H. rewrite bind_unfold, subtotal_step_run in H.
  destruct (float_of_int (qty it)) as [q|e0] eqn:Hq; [|discriminate H].
  constructor; [unfold fits_float; rewrite Hq; reflexivity|].
  apply (IH _ _ _ _ H).
Qed.

(** X3.  [compute_total] raises nothing but the [ValueError] of a failed
    validation and the [OverflowError] of a quantity that does not convert
    to a float: when it raises, either validation found a problem and the
    error is the [ValueError] of the joined report, or validation passed,
    the invoice is present, one of its quantities does not convert, and the
    error is that [OverflowError].  The guard on an absent invoice keeps the
    access to its items from ever failing, and the service object is left
    as it was. *)
Theorem compute_total_raises_only
    (inv : option Invoice) (self self' : InvoiceService) (e : exn) :
  compute_total inv self = (Raise e, self') ->
  self' = self /\
  ((_validate inv <> [] /\ e = ValueError (join "; " (_validate inv))) \/
   (_validate inv = [] /\
    e = OverflowError "int too large to convert to float" /\
    exists i, inv = Some i /\
              Exists (fun it => fits_float (qty it) = false) (items i))).
Proof.
  intros H.
  pose proof (compute_total_state inv self) as Hs. rewrite H in Hs. cbn in Hs.
  split; [exact Hs|].
  destruct (_validate inv) as [|p ps] eqn:Hv.
  - right. split; [reflexivity|].
    destruct inv as [i|]; [|discriminate Hv].
    unfold compute_total, compute_total_body in H.
    rewrite Hv, !bind_unfold in H. unfold _calc_subtotal_and_fragile in H.
    destruct (subtotal_loop (items i) (F64.zero, F64.zero) self)
      as [[[s f]|e0] self1] eqn:E1.
    + rewrite bind_unfold in H.
      destruct (_coupon_discount_returns s (coupon i) [] self1) as [[cd w] Hcd].
      rewrite Hcd, bind_unfold, _tax_amount_run in H. discriminate H.
    + injection H as <- _.
      destruct (subtotal_loop_raises _ _ _ _ _ E1) as [He Hex].
      split; [exact He|]. exists i. split; [reflexivity|exact Hex].
  - left. split; [discriminate|].
    assert (Hne : _validate inv <> []) by (rewrite Hv; discriminate).
    rewrite (compute_total_invalid inv self Hne), Hv in H.
    injection H as <- _. reflexivity.
Qed.

(** The statement above at the invoice whose quantity is [2^1024]. *)
Lemma compute_total_raises_only_witness :
  __init__ = __init__ /\
  ((_validate (Some inv_huge_qty) <> [] /\
    OverflowError "int too large to convert to float" =
      ValueError (join "; " (_validate (Some inv_huge_qty)))) \/
   (_validate (Some inv_huge_qty) = [] /\
    OverflowError "int too large to convert to float" =
      OverflowError "int too large to convert to float" /\
    exists i, Some inv_huge_qty = Some i /\
              Exists (fun it => fits_float (qty it) = false) (items i))).
Proof.
  apply (compute_total_raises_only (Some inv_huge_qty) __init__ __init__).
  vm_compute. reflexivity.
Defined.

(** ** A NaN unit price *)

Lemma add_nan_l (x : float) : F64.add S754_nan x = S754_nan.
Proof. reflexivity. Qed.

Lemma add_nan_r (x : float) : F64.add x S754_nan = S754_nan.
Proof. destruct x; reflexivity. Qed.

Lemma mul_nan_l (x : float) : F64.mul S754_nan x = S754_nan.
Proof. reflexivity. Qed.

Lemma sub_nan_l (x : float) : F64.sub S754_nan x = S754_nan.
Proof. reflexivity. Qed.

Lemma subtotal_loop_nan (l : list LineItem) :
  Forall (fun it => fits_float (qty it) = true) l ->
  forall f self, exists f',
    subtotal_loop l (S754_nan, f) self = (Return (S754_nan, f'), self).
Proof.
  induction 1 as [|it l Hit _ IH]; intros f self; [exists f; reflexivity|].
  cbn [subtotal_loop]. rewrite bind_unfold, subtotal_step_run.
  unfold fits_float in Hit.
  destruct (float_of_int (qty it)) as [q|e]; [|discriminate Hit].
  cbn [fst snd]. rewrite add_nan_l. apply IH.
Qed.

Lemma subtotal_loop_nan_price (l : list LineItem) :
  Exists (fun it => unit_price it = S754_nan) l ->
  Forall (fun it => fits_float (qty it) = true) l ->
  forall s f self, exists f',
    subtotal_loop l (s, f) self = (Return (S754_nan, f'), self).
Proof.
  induction 1 as [it l Hnan|it l _ IH]; intros Hfit s f self;
    inversion Hfit as [|? ? Hit Hl]; subst;
    cbn [subtotal_loop]; rewrite bind_unfold, subtotal_step_run;
    unfold fits_float in Hit;
    (destruct (float_of_int (qty it)) as [q|e]; [|discriminate Hit]);
    cbn [fst snd].
  - rewrite Hnan, mul_nan_l, add_nan_r. apply subtotal_loop_nan, Hl.
  - apply IH, Hl.
Qed.

(** X4.  A NaN unit price is not caught by the validation, whose check is
    [unit_price < 0], and it reaches the result: when an invoice passes
    validation, one of its unit prices is NaN and every quantity is below
    [2^1024 - 2^970], [compute_total] returns NaN as the total, whatever the
    other items, the country, the membership and the coupon are. *)
Theorem nan_price_gives_nan_total (inv : Invoice) (self : InvoiceService) :
  _validate (Some inv) = [] ->
  Exists (fun it => unit_price it = S754_nan) (items inv) ->
  Forall (fun it => qty it < float_int_bound) (items inv) ->
  exists warnings,
    compute_total (Some inv) self = (Return (S754_nan, warnings), self).
Proof.
  intros Hv Hnan Hb.
  destruct (validate_ok inv Hv) as (_ & _ & _ & Hitems).
  pose proof (valid_quantities_fit _ Hitems Hb) as Hfit.
  unfold compute_total, compute_total_body. rewrite Hv, !bind_unfold.
  unfold _calc_subtotal_and_fragile.
  destruct (subtotal_loop_nan_price _ Hnan Hfit F64.zero F64.zero self) as [f ->].
  rewrite bind_unfold.
  destruct (_coupon_discount_returns S754_nan (coupon inv) [] self) as [[cd w] ->].
  rewrite bind_unfold, _tax_amount_run.
  rewrite !add_nan_l, !sub_nan_l. cbn. eexists. reflexivity.
Qed.

(** The statement above at an invoice with a NaN price among its items. *)
Lemma nan_price_gives_nan_total_witness :
  exists warnings,
    compute_total (Some inv_nan_price) __init__ =
    (Return (S754_nan, warnings), __init__).
Proof.
  apply (nan_price_gives_nan_total inv_nan_price __init__).
  - reflexivity.
  - apply Exists_cons_tl, Exists_cons_hd. reflexivity.
  - repeat constructor.
Defined.

(** ** The tax and the rates of the tables *)

Lemma nonneg_geb (x : float) : nonneg x = true -> F64.geb x F64.zero = true.
Proof. float_cases x; cbn; congruence. Qed.

(** X5.  [_tax_amount] multiplies the taxable base by 0.07 for TH, 0.10 for
    JP, 0.08 for US and by the default 0.05 for every other country, the
    country being compared as it is written; it raises nothing and leaves
    the service object as it is. *)
Theorem tax_amount_by_country (taxable : float) (country : string) :
  _tax_amount taxable country __init__ =
  (Return
     (F64.mul taxable
        (F64.literal
           (if String.eqb country "TH" then 7
            else if String.eqb country "JP" then 10
            else if String.eqb country "US" then 8
            else 5) 100)), __init__).
Proof.
  rewrite _tax_amount_run, tax_rate_lookup.
  destruct (String.eqb country "TH"); [reflexivity|].
  destruct (String.eqb country "JP"); [reflexivity|].
  destruct (String.eqb country "US"); reflexivity.
Qed.

(** X6.  The tax on a taxable base that is zero, positive or plus infinity
    is greater than or equal to 0.0 in every country, and the tax on a
    taxable base of 0.0 is 0.0. *)
Theorem tax_not_negative (taxable : float) (country : string) :
  nonneg taxable = true ->
  exists tax,
    _tax_amount taxable country __init__ = (Return tax, __init__) /\
    F64.geb tax F64.zero = true /\
    (taxable = F64.zero -> tax = F64.zero).
Proof.
  intros Hn. rewrite _tax_amount_run.
  destruct (tax_rate_positive country) as (m & e & ->).
  eexists. split; [reflexivity|]. split.
  - apply nonneg_geb, mul_nonneg_positive, Hn.
  - intros ->. reflexivity.
Qed.

(** The statement above at the taxable base 800.0 of the coupon case. *)
Lemma tax_not_negative_witness :
  exists tax,
    _tax_amount (F64.of_int 800) "US" __init__ = (Return tax, __init__) /\
    F64.geb tax F64.zero = true /\
    (F64.of_int 800 = F64.zero -> tax = F64.zero).
Proof.
  apply (tax_not_negative (F64.of_int 800) "US"). reflexivity.
Defined.


(** ** The order of the doubles and the shipping fee *)

Lemma compare_finite_trans (e1 e2 e3 : Z) (m1 m2 m3 : positive) :
  let cmp e m e' m' :=
    match e ?= e' with Lt => Lt | Gt => Gt | Eq => Pos.compare_cont Eq m m' end in
  cmp e1 m1 e2 m2 <> Gt -> cmp e2 m2 e3 m3 = Lt -> cmp e1 m1 e3 m3 = Lt.
Proof.
  intros cmp. unfold cmp.
  change (Pos.compare_cont Eq) with Pos.compare.
  destruct (Z.compare_spec e1 e2), (Z.compare_spec e2 e3), (Z.compare_spec e1 e3);
    try lia; try congruence; subst.
  intros H12 H23. change (m1 < m3)%positive.
  change (m1 <= m2)%positive in H12. change (m2 < m3)%positive in H23. lia.
Qed.

Lemma compare_finite_trans' (e1 e2 e3 : Z) (m1 m2 m3 : positive) :
  let cmp e m e' m' :=
    match e ?= e' with Lt => Lt | Gt => Gt | Eq => Pos.compare_cont Eq m m' end in
  cmp e1 m1 e2 m2 = Lt -> cmp e2 m2 e3 m3 <> Gt -> cmp e1 m1 e3 m3 = Lt.
Proof.
  intros cmp. unfold cmp.
  change (Pos.compare_cont Eq) with Pos.compare.
  destruct (Z.compare_spec e1 e2), (Z.compare_spec e2 e3), (Z.compare_spec e1 e3);
    try lia; try congruence; subst.
  intros H12 H23. change (m1 < m3)%positive.
  change (m1 < m2)%positive in H12. change (m2 <= m3)%positive in H23. lia.
Qed.

(** [x <= y] and [y < z] give [x < z] when [z] is a positive number. *)
Lemma leb_ltb_trans (x y : float) (mz : positive) (ez : Z) :
  F64.geb y x = true -> F64.ltb y (S754_finite false mz ez) = true ->
  F64.ltb x (S754_finite false mz ez) = true.
Proof.
  unfold F64.geb, F64.ltb, SFleb, SFltb.
  float_cases x; float_cases y; cbn; try congruence.
  pose proof (compare_finite_trans e e0 ez m m0 mz) as T. cbn zeta in T.
  destruct (match e ?= e0 with
            | Eq => Pos.compare_cont Eq m m0 | Lt => Lt | Gt => Gt end) eqn:E12;
    try discriminate;
    (destruct (match e0 ?= ez with
               | Eq => Pos.compare_cont Eq m0 mz | Lt => Lt | Gt => Gt end) eqn:E23;
     try discriminate);
    intros _ _; rewrite T; congruence.
Qed.

(** [x < y] and [y <= z] give [x < z] for positive numbers [y] and [z]. *)
Lemma ltb_leb_trans (x : float) (my mz : positive) (ey ez : Z) :
  F64.ltb x (S754_finite false my ey) = true ->
  F64.geb (S754_finite false mz ez) (S754_finite false my ey) = true ->
  F64.ltb x (S754_finite false mz ez) = true.
Proof.
  unfold F64.geb, F64.ltb, SFleb, SFltb.
  float_cases x; cbn; try congruence.
  pose proof (compare_finite_trans' e ey ez m my mz) as T. cbn zeta in T.
  destruct (match e ?= ey with
            | Eq => Pos.compare_cont Eq m my | Lt => Lt | Gt => Gt end) eqn:E12;
    try discriminate;
    (destruct (match ey ?= ez with
               | Eq => Pos.compare_cont Eq my mz | Lt => Lt | Gt => Gt end) eqn:E23;
     try discriminate);
    intros _ _; rewrite T; congruence.
Qed.

Lemma ltb_below_4000 (x : float) (k : Z) :
  In k [100; 200; 300; 500] ->
  F64.ltb x (F64.of_int k) = true -> F64.ltb x (F64.of_int 4000) = true.
Proof.
  intros Hk H.
  assert (Hc : exists m e, F64.of_int k = S754_finite false m e /\
                           F64.geb (F64.of_int 4000) (F64.of_int k) = true).
  { cbn in Hk. destruct Hk as [<-|[<-|[<-|[<-|[]]]]];
      eexists; eexists; split; reflexivity. }
  destruct Hc as (m & e & Hk' & Hle). rewrite Hk' in H, Hle.
  revert Hle. change (F64.of_int 4000) with (S754_finite false 8796093022208000 (-41)).
  apply ltb_leb_trans, H.
Qed.

(** X8.  The shipping fee never grows with the subtotal: for one country and
    two subtotals of which the second is greater than or equal to the first,
    the fee for the second is at most the fee for the first. *)
Theorem shipping_monotone (s1 s2 : float) (country : string) :
  F64.geb s2 s1 = true ->
  F64.geb (_calc_shipping s1 country) (_calc_shipping s2 country) = true.
Proof.
  intros Hle.
  assert (T : forall k m e, F64.of_int k = S754_finite false m e ->
                F64.ltb s2 (F64.of_int k) = true -> F64.ltb s1 (F64.of_int k) = true).
  { intros k m e ->. apply leb_ltb_trans, Hle. }
  unfold _calc_shipping.
  destruct (String.eqb country "US").
  { destruct (F64.ltb s2 (F64.of_int 100)) eqn:A2.
    - rewrite (T 100 _ _ eq_refl A2). reflexivity.
    - destruct (F64.ltb s2 (F64.of_int 300)) eqn:B2.
      + rewrite (T 300 _ _ eq_refl B2).
        destruct (F64.ltb s1 (F64.of_int 100)); reflexivity.
      + destruct (F64.ltb s1 (F64.of_int 100)); [reflexivity|].
        destruct (F64.ltb s1 (F64.of_int 300)); reflexivity. }
  destruct (String.eqb country "TH").
  { destruct (F64.ltb s2 (F64.of_int 500)) eqn:A2.
    - rewrite (T 500 _ _ eq_refl A2). reflexivity.
    - destruct (F64.ltb s1 (F64.of_int 500)); reflexivity. }
  destruct (String.eqb country "JP").
  { destruct (F64.ltb s2 (F64.of_int 4000)) eqn:A2.
    - rewrite (T 4000 _ _ eq_refl A2). reflexivity.
    - destruct (F64.ltb s1 (F64.of_int 4000)); reflexivity. }
  destruct (F64.ltb s2 (F64.of_int 200)) eqn:A2.
  - rewrite (T 200 _ _ eq_refl A2). reflexivity.
  - destruct (F64.ltb s1 (F64.of_int 200)); reflexivity.
Qed.

(** The statement above at the subtotals 99.0 and 100.0 in the US. *)
Lemma shipping_monotone_witness :
  F64.geb (_calc_shipping (F64.of_int 99) "US")
          (_calc_shipping (F64.of_int 100) "US") = true.
Proof.
  apply (shipping_monotone (F64.of_int 99) (F64.of_int 100) "US"). reflexivity.
Defined.

(** X9.  In every country the shipping fee is 0.0 as soon as the subtotal is
    not below 4000, which a NaN subtotal is not either; otherwise it is one
    of 8.0, 15.0, 25.0, 60.0 and 600.0.  So the fee is never negative, never
    NaN and never above 600.0. *)
Theorem shipping_values (subtotal : float) (country : string) :
  (_calc_shipping subtotal country = F64.zero \/
   F64.ltb subtotal (F64.of_int 4000) = true /\
   In (_calc_shipping subtotal country)
      [F64.of_int 8; F64.of_int 15; F64.of_int 25; F64.of_int 60; F64.of_int 600]) /\
  F64.geb (_calc_shipping subtotal country) F64.zero = true /\
  F64.geb (F64.of_int 600) (_calc_shipping subtotal country) = true.
Proof.
  assert (B : forall k v,
            In k [100; 200; 300; 500] ->
            In v [F64.of_int 8; F64.of_int 15; F64.of_int 25; F64.of_int 60;
                  F64.of_int 600] ->
            F64.ltb subtotal (F64.of_int k) = true ->
            v = F64.zero \/
            F64.ltb subtotal (F64.of_int 4000) = true /\
            In v [F64.of_int 8; F64.of_int 15; F64.of_int 25; F64.of_int 60;
                  F64.of_int 600]).
  { intros k v Hk Hv H. right. split; [apply (ltb_below_4000 _ k Hk H)|exact Hv]. }
  split.
  - unfold _calc_shipping.
    destruct (String.eqb country "US").
    { destruct (F64.ltb subtotal (F64.of_int 100)) eqn:E1;
        [apply (B 100); [cbn; tauto|right; left; reflexivity|exact E1]|].
      destruct (F64.ltb subtotal (F64.of_int 300)) eqn:E2;
        [apply (B 300); [cbn; tauto|left; reflexivity|exact E2]|].
      left. reflexivity. }
    destruct (String.eqb country "TH").
    { destruct (F64.ltb subtotal (F64.of_int 500)) eqn:E1;
        [apply (B 500); [cbn; tauto|do 3 right; left; reflexivity|exact E1]|].
      left. reflexivity. }
    destruct (String.eqb country "JP").
    { destruct (F64.ltb subtotal (F64.of_int 4000)) eqn:E1; [|left; reflexivity].
      right. split; [reflexivity|]. do 4 right. left. reflexivity. }
    destruct (F64.ltb subtotal (F64.of_int 200)) eqn:E1;
      [apply (B 200); [cbn; tauto|do 2 right; left; reflexivity|exact E1]|].
    left. reflexivity.
  - unfold _calc_shipping.
    repeat match goal with |- context [if ?b then _ else _] => destruct b end;
      split; reflexivity.
Qed.

(** ** The subtotal and the fragile fee *)

Lemma subtotal_loop_fee_view (l : list LineItem) :
  forall (l' : list LineItem) (s s' f : float) (self : InvoiceService),
    map fee_view l = map fee_view l' ->
    fee_of (fst (subtotal_loop l (s, f) self)) =
    fee_of (fst (subtotal_loop l' (s', f) self)).
Proof.
  induction l as [|it l IH]; intros [|it' l'] s s' f self Hmap;
    try discriminate Hmap; [reflexivity|].
  cbn [map] in Hmap. injection Hmap as Hq Hf Hmap.
  cbn [subtotal_loop]. rewrite !bind_unfold, !subtotal_step_run, <- Hq, <- Hf.
  destruct (float_of_int (qty it)) as [q|e]; [|reflexivity].
  cbn [fst snd]. apply IH, Hmap.
Qed.

(** X10.  The fragile fee reads nothing of an item but its quantity and its
    fragile mark: two lists of items that agree on these, item by item, give
    the same fragile fee, or the same error, whatever their prices, skus and
    categories are. *)
Theorem fragile_fee_ignores_prices (l l' : list LineItem) (self : InvoiceService) :
  map fee_view l = map fee_view l' ->
  fee_of (fst (_calc_subtotal_and_fragile l self)) =
  fee_of (fst (_calc_subtotal_and_fragile l' self)).
Proof. apply subtotal_loop_fee_view. Qed.

(** The statement above at the prices 0.1, 0.2, 0.3 and their reverse. *)
Lemma fragile_fee_ignores_prices_witness :
  fee_of (fst (_calc_subtotal_and_fragile items_ascending __init__)) =
  fee_of (fst (_calc_subtotal_and_fragile items_descending __init__)).
Proof.
  apply (fragile_fee_ignores_prices items_ascending items_descending __init__).
  reflexivity.
Defined.

Lemma subtotal_loop_no_fragile (l : list LineItem) :
  Forall (fun it => fragile it = false) l ->
  forall s f self s' f' self',
    subtotal_loop l (s, f) self = (Return (s', f'), self') -> f' = f.
Proof.
  induction 1 as [|it l Hit _ IH]; intros s f self s' f' self' H.
  - injection H as _ <- _. reflexivity.
  - cbn [subtotal_loop] in H. rewrite bind_unfold, subtotal_step_run, Hit in H.
    destruct (float_of_int (qty it)) as [q|e]; [|discriminate H].
    cbn [fst snd] in H. apply (IH _ _ _ _ _ _ H).
Qed.

(** X11.  When no item is marked fragile the fragile fee is 0.0, whatever
    the quantities and the prices are. *)
Theorem no_fragile_no_fee
    (l : list LineItem) (self self' : InvoiceService) (subtotal fee : float) :
  Forall (fun it => fragile it = false) l ->
  _calc_subtotal_and_fragile l self = (Return (subtotal, fee), self') ->
  fee = F64.zero.
Proof. intros Hl H. apply (subtotal_loop_no_fragile l Hl _ _ _ _ _ _ H). Qed.

(** The statement above at the item of the coupon case. *)
Lemma no_fragile_no_fee_witness : F64.zero = F64.zero.
Proof.
  apply (no_fragile_no_fee [item_1000] __init__ __init__ (F64.of_int 1000) F64.zero).
  - repeat constructor.
  - reflexivity.
Defined.

Lemma subtotal_loop_app (l1 l2 : list LineItem) :
  forall acc self,
    subtotal_loop (l1 ++ l2) acc self =
    (subtotal_loop l1 acc ≫= subtotal_loop l2) self.
Proof.
  induction l1 as [|it l1 IH]; intros acc self.
  - rewrite bind_unfold. reflexivity.
  - cbn [app subtotal_loop]. rewrite !bind_unfold.
    destruct (subtotal_step acc it self) as [[acc'|e] self1]; [|reflexivity].
    rewrite IH, bind_unfold. reflexivity.
Qed.

(** X12.  [_calc_subtotal_and_fragile] is a left fold: on a list followed by
    another it gives what the loop gives on the second list when it starts
    from the two sums of the first, and an error on the first list is the
    error of the whole. *)
Theorem calc_app (l1 l2 : list LineItem) (self : InvoiceService) :
  _calc_subtotal_and_fragile (l1 ++ l2) self =
  match _calc_subtotal_and_fragile l1 self with
  | (Return sums, self') => subtotal_loop l2 sums self'
  | (Raise e, self') => (Raise e, self')
  end.
Proof.
  unfold _calc_subtotal_and_fragile. rewrite subtotal_loop_app. apply bind_unfold.
Qed.

(** X13.  On items that pass the four checks of the validation the fragile
    fee is greater than or equal to 0.0, and the subtotal is greater than or
    equal to 0.0 unless it is NaN. *)
Theorem calc_amounts_not_negative
    (l : list LineItem) (self self' : InvoiceService) (subtotal fee : float) :
  Forall item_valid l ->
  _calc_subtotal_and_fragile l self = (Return (subtotal, fee), self') ->
  F64.geb fee F64.zero = true /\
  (F64.is_nan subtotal = false -> F64.geb subtotal F64.zero = true).
Proof.
  intros Hl H.
  assert (Hl' : Forall (fun it => validate_item [] it = []) l).
  { clear H. induction Hl as [|it l Hit _ IH]; constructor;
      [apply validate_item_valid, Hit|exact IH]. }
  destruct (subtotal_loop_nonneg l Hl' F64.zero F64.zero self subtotal fee self'
              eq_refl eq_refl H) as [Hs Hf].
  split; [apply nonneg_geb, Hf|].
  intros Hnan. apply nonneg_geb. unfold nonneg_or_nan in Hs.
  rewrite Hnan in Hs. exact Hs.
Qed.

(** The statement above at the three items of whole price. *)
Lemma calc_amounts_not_negative_witness :
  F64.geb (F64.of_int 20) F64.zero = true /\
  (F64.is_nan (F64.of_int 60) = false -> F64.geb (F64.of_int 60) F64.zero = true).
Proof.
  apply (calc_amounts_not_negative items_whole __init__ __init__).
  - repeat constructor; discriminate.
  - reflexivity.
Defined.

(** ** The quantities that convert, negative ones included *)

Lemma round_opp (m : positive) (e : Z) :
  binary_round 53 1024 true m e = SFopp (binary_round 53 1024 false m e).
Proof.
  unfold binary_round, binary_round_aux.
  destruct (shl_align m e (fexp 53 1024 (Z.pos (digits2_pos m) + e))) as [mz ez].
  destruct (shr_fexp 53 1024 (Z.pos mz) ez loc_Exact) as [mrs e'].
  destruct (shr_fexp 53 1024
              (round_nearest_even (shr_m mrs) (loc_of_shr_record mrs)) e' loc_Exact)
    as [mrs' e''].
  destruct (shr_m mrs'); try reflexivity.
  destruct (e'' <=? 1024 - 53); reflexivity.
Qed.

Lemma fits_float_opp (n : Z) : fits_float (- n) = fits_float n.
Proof.
  unfold fits_float, float_of_int, F64.of_int, binary_normalize, F64.prec, F64.emax.
  destruct n as [|p|p]; [reflexivity| |];
    [change (- Z.pos p) with (Z.neg p)|change (- Z.neg p) with (Z.pos p)];
    cbv iota; rewrite round_opp;
    destruct (binary_round 53 1024 false p 0); reflexivity.
Qed.

Lemma fits_float_abs (n : Z) : fits_float n = true <-> Z.abs n < float_int_bound.
Proof.
  destruct (Z.abs_spec n) as [[Hn ->]|[Hn ->]].
  - apply fits_float_iff, Hn.
  - rewrite <- (fits_float_iff (- n)) by lia. rewrite fits_float_opp. reflexivity.
Qed.

(** X14.  Without a validation before it, [_calc_subtotal_and_fragile]
    returns exactly when every quantity [q] has [|q| < 2^1024 - 2^970], the
    integers that convert to a float; otherwise it raises, whatever the
    prices are. *)
Theorem calc_returns_iff (l : list LineItem) (self : InvoiceService) :
  (exists sums, _calc_subtotal_and_fragile l self = (Return sums, self)) <->
  Forall (fun it => Z.abs (qty it) < float_int_bound) l.
Proof.
  split.
  - intros [sums H]. apply subtotal_loop_returns_fits in H.
    induction H as [|it l' Hit _ IH]; constructor;
      [apply fits_float_abs, Hit|exact IH].
  - intros H. apply subtotal_loop_fits.
    induction H as [|it l' Hit _ IH]; constructor;
      [apply fits_float_abs, Hit|exact IH].
Qed.

(** ** Trimmed coupon codes *)

Lemma lstrip_head (s : string) :
  match lstrip s with
  | EmptyString => True
  | String c _ => isspace c = false
  end.
Proof.
  induction s as [|c s IH]; [exact I|].
  cbn [lstrip]. destruct (isspace c) eqn:E; [exact IH|exact E].
Qed.

Lemma rstrip_head (c : ascii) (s : string) :
  isspace c = false -> exists r, rstrip (String c s) = String c r.
Proof.
  intros Hc. cbn [rstrip]. rewrite Hc.
  destruct (rstrip s); eexists; reflexivity.
Qed.

Lemma rstrip_idempotent (s : string) : rstrip (rstrip s) = rstrip s.
Proof.
  induction s as [|c s IH]; [reflexivity|].
  cbn [rstrip]. destruct (rstrip s) as [|c' r] eqn:E.
  - destruct (isspace c) eqn:Hc; [reflexivity|].
    cbn [rstrip]. rewrite Hc. reflexivity.
  - change (rstrip (String c (String c' r))) with
      (match rstrip (String c' r) with
       | EmptyString => if isspace c then EmptyString else String c EmptyString
       | r' => String c r'
       end).
    rewrite IH. reflexivity.
Qed.

Lemma strip_idempotent (s : string) : strip (strip s) = strip s.
Proof.
  unfold strip. pose proof (lstrip_head s) as Hh.
  destruct (lstrip s) as [|c r]; [reflexivity|].
  destruct (rstrip_head c r Hh) as [r' Hr]. rewrite Hr.
  cbn [lstrip]. rewrite Hh, <- Hr. apply rstrip_idempotent.
Qed.

Lemma blank_test (c : string) :
  (String.eqb c "" || String.eqb (strip c) "") = String.eqb (strip c) "".
Proof. destruct c; reflexivity. Qed.

(** X15.  [_coupon_discount] treats a coupon as its trimmed code: a coupon
    with white space around it gives the discount and the warnings of the
    coupon without it, so two coupons with the same trimmed code are
    interchangeable.  The comparison with the table is otherwise exact. *)
Theorem coupon_trimmed
    (subtotal : float) (c : string) (warnings : list string) (self : InvoiceService) :
  _coupon_discount subtotal (Some c) warnings self =
  _coupon_discount subtotal (Some (strip c)) warnings self.
Proof.
  unfold _coupon_discount. rewrite !blank_test, !strip_idempotent. reflexivity.
Qed.

(** ** A coupon without a rate *)

(** X16.  A coupon that has no rate, be it blank or unknown, changes nothing
    of the result but the warning: [compute_total] gives the total of the
    same invoice without a coupon, or fails as it does, and the warnings are
    those of that invoice with ["Unknown coupon"] before them when the
    trimmed code is not empty. *)
Theorem coupon_without_rate (inv : Invoice) :
  (forall c, coupon inv = Some c -> _coupon_rate __init__ !! strip c = None) ->
  compute_total (Some inv) __init__ =
  match compute_total (Some (with_coupon inv None)) __init__ with
  | (Return (total, warnings), self') =>
      (Return (total,
               (if coupon_unknown (coupon inv) then ["Unknown coupon"] else [])
               ++ warnings), self')
  | failure => failure
  end.
Proof.
  intros Hrate. unfold compute_total, compute_total_body.
  change (_validate (Some (with_coupon inv None))) with (_validate (Some inv)).
  rewrite !bind_unfold.
  destruct (_validate (Some inv)) as [|p ps]; [|reflexivity].
  rewrite !bind_unfold.
  change (items (with_coupon inv None)) with (items inv).
  change (country (with_coupon inv None)) with (country inv).
  change (membership (with_coupon inv None)) with (membership inv).
  change (coupon (with_coupon inv None)) with (@None string).
  pose proof (subtotal_loop_state (items inv) (F64.zero, F64.zero) __init__) as Hs.
  unfold _calc_subtotal_and_fragile.
  destruct (subtotal_loop (items inv) (F64.zero, F64.zero) __init__)
    as [[[s f]|e] self1]; cbn in Hs; subst self1; [|reflexivity].
  rewrite !bind_unfold, !_coupon_discount_run.
  unfold coupon_unknown.
  destruct (coupon inv) as [c|] eqn:Ec.
  - rewrite (Hrate c eq_refl).
    destruct (String.eqb (strip c) ""); cbn [negb andb];
      rewrite !bind_unfold, !_tax_amount_run; cbn [app]; try reflexivity.
    destruct (F64.gtb s (F64.of_int 10000)
              && negb (str_in (membership inv) ["gold"; "platinum"]));
      reflexivity.
  - rewrite !bind_unfold, !_tax_amount_run. reflexivity.
Qed.

(** The statement above at the coupon case with the coupon BOGUS50. *)
Lemma coupon_without_rate_witness :
  compute_total (Some inv_bogus50) __init__ =
  match compute_total (Some (with_coupon inv_bogus50 None)) __init__ with
  | (Return (total, warnings), self') =>
      (Return (total,
               (if coupon_unknown (coupon inv_bogus50) then ["Unknown coupon"] else [])
               ++ warnings), self')
  | failure => failure
  end.
Proof.
  apply (coupon_without_rate inv_bogus50).
  intros c Hc. injection Hc as <-. reflexivity.
Defined.

(** ** Whole prices and finite subtotals *)

(** X17.  On an invoice that passes validation and whose unit prices are
    whole numbers, with prices, quantities and the two sums below [2^53],
    [compute_total] works with the exact subtotal and the exact fragile fee:
    no addition and no product of the loop rounds. *)
Theorem whole_prices_exact
    (inv : Invoice) (whole : LineItem -> Z) (self : InvoiceService) :
  _validate (Some inv) = [] ->
  exact_amounts whole (items inv) ->
  exists l,
    compute_total_body (Some inv) self = (Return l, self) /\
    l_subtotal l = F64.of_int (exact_subtotal whole (items inv)) /\
    l_fragile_fee l = F64.of_int (exact_fragile_fee (items inv)).
Proof.
  intros Hv Hex. unfold compute_total_body.
  rewrite Hv, bind_unfold, (calc_exact whole _ self Hex), bind_unfold.
  destruct (_coupon_discount_returns
              (F64.of_int (exact_subtotal whole (items inv))) (coupon inv) [] self)
    as [[cd w] ->].
  rewrite bind_unfold, _tax_amount_run.
  eexists. split; [reflexivity|]. split; reflexivity.
Qed.

(** The statement above at three items of the whole price 10.0. *)
Lemma whole_prices_exact_witness :
  exists l,
    compute_total_body (Some inv_whole) __init__ = (Return l, __init__) /\
    l_subtotal l = F64.of_int 60 /\ l_fragile_fee l = F64.of_int 20.
Proof.
  apply (whole_prices_exact inv_whole (fun _ => 10) __init__).
  - reflexivity.
  - split; [|split; reflexivity].
    repeat constructor; cbn; try reflexivity; try discriminate.
Defined.

Lemma membership_discount_below (s : float) (membership : string) :
  in_range s -> F64.is_finite s = true -> nonneg s = true ->
  amount_below 1020 (_membership_discount s membership).
Proof.
  intros Hr Hf Hn. unfold _membership_discount.
  destruct (String.eqb membership "gold");
    [apply (amount_below_rate s 3 (-4)); cbn; auto|].
  destruct (String.eqb membership "platinum");
    [apply (amount_below_rate s 5 (-4)); cbn; auto|].
  destruct (F64.gtb s (F64.of_int 3000)); [|apply amount_below_zero; lia].
  repeat split; vm_compute; try lia; discriminate.
Qed.

Lemma coupon_discount_below (s : float) (coupon : option string)
    (cd : float) (w w' : list string) :
  in_range s -> F64.is_finite s = true -> nonneg s = true ->
  _coupon_discount s coupon w __init__ = (Return (cd, w'), __init__) ->
  amount_below 1022 cd.
Proof.
  intros Hr Hf Hn Hcd.
  rewrite _coupon_discount_run in Hcd. injection Hcd as Hcd.
  destruct coupon as [c|]; [|injection Hcd as <- _; apply amount_below_zero; lia].
  destruct (String.eqb (strip c) "");
    [injection Hcd as <- _; apply amount_below_zero; lia|].
  rewrite coupon_rate_lookup in Hcd.
  destruct (String.eqb (strip c) "WELCOME10");
    [injection Hcd as <- _; apply (amount_below_rate s 10 (-2)); cbn; auto|].
  destruct (String.eqb (strip c) "VIP20");
    [injection Hcd as <- _; apply (amount_below_rate s 20 (-2)); cbn; auto|].
  destruct (String.eqb (strip c) "STUDENT5");
    [injection Hcd as <- _;
     apply (amount_below_le 1020 1022); [lia|lia|];
     apply (amount_below_rate s 5 (-4)); cbn; auto|].
  injection Hcd as <- _. apply amount_below_zero. lia.
Qed.

(** X18.  When [compute_total] returns and the subtotal is finite, the
    subtotal, the fragile fee and the shipping fee are greater than or equal
    to 0.0, the discount is finite and greater than or equal to 0.0, so the
    discounts never overflow, and the tax is greater than or equal to 0.0. *)
Theorem finite_subtotal_amounts (inv : Invoice) (l : Locals) (self' : InvoiceService) :
  compute_total_body (Some inv) __init__ = (Return l, self') ->
  F64.is_finite (l_subtotal l) = true ->
  F64.geb (l_subtotal l) F64.zero = true /\
  F64.geb (l_fragile_fee l) F64.zero = true /\
  F64.geb (l_shipping l) F64.zero = true /\
  F64.is_finite (l_discount l) = true /\
  F64.geb (l_discount l) F64.zero = true /\
  F64.geb (l_tax l) F64.zero = true.
Proof.
  intros Hb.
  destruct (compute_total_body_inv _ _ _ _ Hb)
    as (s & f & cd & w & Hv & Hcalc & Hcd & ->).
  cbn [l_subtotal l_fragile_fee l_shipping l_discount l_tax].
  intros Hs.
  destruct (validate_ok inv Hv) as (_ & _ & _ & Hitems).
  destruct (subtotal_loop_nonneg _ Hitems F64.zero F64.zero __init__ s f __init__
              eq_refl eq_refl Hcalc) as [Hs' Hf].
  apply (finite_nonneg_or_nan s Hs) in Hs'.
  pose proof (subtotal_loop_in_range _ F64.zero F64.zero __init__ s f __init__
                I Hcalc) as Hrange.
  destruct (membership_discount_below s (membership inv) Hrange Hs Hs')
    as (M1 & M2 & M3 & M4).
  destruct (coupon_discount_below s (coupon inv) cd [] w Hrange Hs Hs' Hcd)
    as (C1 & C2 & C3 & C4).
  set (d := F64.add (_membership_discount s (membership inv)) cd).
  assert (Hd : F64.is_finite d = true).
  { apply add_magnitude; try assumption.
    assert (Hpow : 2 ^ (1020 + 1074) + 2 ^ (1022 + 1074) < 2 ^ (1023 + 1074))
      by reflexivity.
    lia. }
  assert (Ht : F64.is_nan (F64.sub s d) = false) by (apply sub_finite_not_nan; auto).
  split; [apply nonneg_geb, Hs'|].
  split; [apply nonneg_geb, Hf|].
  split; [apply nonneg_geb, _calc_shipping_nonneg|].
  split; [exact Hd|].
  split; [apply nonneg_geb, add_nonneg; assumption|].
  destruct (tax_rate_positive (country inv)) as (m & e & ->).
  apply nonneg_geb, mul_nonneg_positive, py_max_zero_nonneg, Ht.
Qed.

(** The statement above at the invoice of the coupon case. *)
Lemma finite_subtotal_amounts_witness :
  F64.geb (F64.of_int 1000) F64.zero = true /\
  F64.geb F64.zero F64.zero = true /\
  F64.geb F64.zero F64.zero = true /\
  F64.is_finite (F64.of_int 200) = true /\
  F64.geb (F64.of_int 200) F64.zero = true /\
  F64.geb (F64.of_int 64) F64.zero = true.
Proof.
  apply (finite_subtotal_amounts inv_vip20
           {| l_subtotal := F64.of_int 1000; l_fragile_fee := F64.zero;
              l_shipping := F64.zero; l_discount := F64.of_int 200;
              l_taxable := F64.of_int 800; l_tax := F64.of_int 64;
              l_total := F64.of_int 864; l_warnings := [] |} __init__).
  - vm_compute. reflexivity.
  - reflexivity.
Defined.
